(** * computer-use-my-mac: the computer tool and the bounded runner

    A shallow embedding of
    - [computer_use_demo/tools/run.py]      ([maybe_truncate], [run_shell], [run])
    - [computer_use_demo/tools/computer.py] ([ComputerTool.__call__],
      [scale_coordinates], [screenshot])
    and the properties of the specification checked against it. *)

From Stdlib Require Import ZArith List Bool Lia.
From Stdlib Require Import Strings.String Strings.Ascii Numbers.DecimalString.
From Stdlib Require Import Floats.SpecFloat.
Import ListNotations.

Open Scope bool_scope.
Open Scope string_scope.
Open Scope Z_scope.

(** ** Python's [str] builtins, as far as the two files use them.

    A [str] is a [string]; its characters are the code points below 256. *)
Module PyStr.

(** [len(s)] *)
Definition len (s : string) : Z := Z.of_nat (String.length s).

(** The first [k] characters of [s] (all of it when [s] is shorter). *)
Fixpoint take (k : nat) (s : string) : string :=
  match k, s with
  | S k', String c t => String c (take k' t)
  | _, _ => EmptyString
  end.

(** [s[:n]]: a negative [n] counts from the end, and the bound is clamped
    to [0 .. len(s)]. *)
Definition slice_to (s : string) (n : Z) : string :=
  let stop := if n <? 0 then Z.max 0 (len s + n) else Z.min n (len s) in
  take (Z.to_nat stop) s.

(** [needle in hay] *)
Fixpoint contains (needle hay : string) : bool :=
  String.prefix needle hay ||
  match hay with
  | EmptyString => false
  | String _ t => contains needle t
  end.

(** [c.lower()] on a code point below 256: A-Z and the Latin-1 capitals
    (0xC0-0xDE without the multiplication sign 0xD7) move up by 32. *)
Definition lower_char (c : ascii) : ascii :=
  let n := N_of_ascii c in
  if ((65 <=? n) && (n <=? 90))%N
     || ((192 <=? n) && (n <=? 222) && negb (n =? 215))%N
  then ascii_of_N (n + 32) else c.

(** [s.lower()] *)
Fixpoint lower (s : string) : string :=
  match s with
  | EmptyString => EmptyString
  | String c t => String (lower_char c) (lower t)
  end.

(** [s.replace(old, new)] for a non-empty [old]: occurrences are taken
    left to right and do not overlap.  [skip] counts the characters of
    the occurrence being replaced that are still to be dropped. *)
Fixpoint replace_from (old new : string) (skip : nat) (s : string) : string :=
  match s with
  | EmptyString => EmptyString
  | String c t =>
      match skip with
      | S k => replace_from old new k t
      | O =>
          if String.prefix old s
          then new ++ replace_from old new (String.length old - 1) t
          else String c (replace_from old new O t)
      end
  end.

(** [s.replace(old, new)]; with an empty [old] Python puts [new] around
    every character. *)
Fixpoint interleave (new s : string) : string :=
  match s with
  | EmptyString => new
  | String c t => new ++ String c (interleave new t)
  end.

Definition replace (old new s : string) : string :=
  match old with
  | EmptyString => interleave new s
  | _ => replace_from old new O s
  end.

(** [s.split(sep)] for a one-character separator: the pieces between
    the separators, in order; never an empty list. *)
Fixpoint split (sep : ascii) (s : string) : list string :=
  match s with
  | EmptyString => [EmptyString]
  | String c t =>
      if Ascii.eqb c sep then EmptyString :: split sep t
      else match split sep t with
           | h :: r => String c h :: r
           | [] => [String c EmptyString]
           end
  end.

(** [sep.join(parts)] *)
Fixpoint join (sep : string) (parts : list string) : string :=
  match parts with
  | [] => EmptyString
  | [p] => p
  | p :: rest => p ++ sep ++ join sep rest
  end.

(** [str(n)] for an [int]. *)
Definition of_int (n : Z) : string := NilZero.string_of_int (Z.to_int n).

(** [s] without its first [k] characters. *)
Fixpoint drop (k : nat) (s : string) : string :=
  match k, s with
  | S k', String _ t => drop k' t
  | _, _ => s
  end.

(** A slice bound brought into [0 .. len(s)]: a negative one counts from
    the end. *)
Definition clamp (s : string) (i : Z) : Z :=
  if i <? 0 then Z.max 0 (len s + i) else Z.min i (len s).

(** [s[i:j]] *)
Definition slice (s : string) (i j : Z) : string :=
  let lo := clamp s i in
  let hi := clamp s j in
  take (Z.to_nat (hi - lo)) (drop (Z.to_nat lo) s).

(** [''.join(parts)] *)
Fixpoint concat (parts : list string) : string :=
  match parts with
  | [] => EmptyString
  | p :: rest => p ++ concat rest
  end.

End PyStr.

(** ** Exceptions and results

    A call either returns a value or raises.  [ToolErrorOutput] stands
    for what [raise ToolError(output=...)] raises: [computer.py] writes
    this one raise with a keyword, and [tools/base.py], which decides
    whether that builds a [ToolError] or fails in its constructor, is not
    among the sources. *)
Inductive exn : Type :=
| ToolError (message : string)
| TimeoutError (message : string)
| OverflowError
| ValueError
| ZeroDivisionError
| UnicodeDecodeError
| TypeError
| ToolErrorOutput (output : string).

Inductive result (A : Type) : Type :=
| Return (a : A)
| Raise (e : exn).
Arguments Return {A} a.
Arguments Raise {A} e.

(** ** [run.py]: the bounded runner *)
Module Run.

Definition TRUNCATED_MESSAGE : string :=
  "<response clipped><NOTE>Response was truncated to save context.</NOTE>".
Definition MAX_RESPONSE_LEN : Z := 16000.

(** [not truncate_after] for an [int | None]: true on [None] and on [0]. *)
Definition py_not (truncate_after : option Z) : bool :=
  match truncate_after with
  | None => true
  | Some n => n =? 0
  end.

(** [len(content) <= truncate_after]; only evaluated when
    [truncate_after] is an [int]. *)
Definition within (content : string) (truncate_after : option Z) : bool :=
  match truncate_after with
  | None => true
  | Some n => PyStr.len content <=? n
  end.

Definition maybe_truncate (content : string) (truncate_after : option Z) : string :=
  if py_not truncate_after || within content truncate_after
  then content
  else match truncate_after with
       | Some n => PyStr.slice_to content n ++ TRUNCATED_MESSAGE
       | None => content
       end.

(** A [timeout] argument: [None], or a number of seconds, which callers
    pass as an [int] or as a [float]. *)
Inductive seconds : Type :=
| SecInt (n : Z)
| SecFloat (f : spec_float).

(** What an awaitable does under [asyncio.wait_for]: the value it
    produces, and whether it is done by a given deadline.  An awaitable
    here is one that completes: waiting without a timeout for one that
    never does goes on for ever, and is outside this model. *)
Record awaitable (A : Type) : Type := {
  value : A;
  done_by : seconds -> bool
}.
Arguments value {A} _.
Arguments done_by {A} _ _.

Inductive awaited (A : Type) : Type :=
| Finished (a : A)
| Expired.
Arguments Finished {A} a.
Arguments Expired {A}.

(** [asyncio.wait_for(aw, timeout=timeout)]: without a timeout it waits
    for the value; with one it raises [asyncio.TimeoutError] when the
    deadline passes first. *)
Definition wait_for {A : Type} (aw : awaitable A) (timeout : option seconds) : awaited A :=
  match timeout with
  | None => Finished (value aw)
  | Some t => if done_by aw t then Finished (value aw) else Expired
  end.

(** What [process.communicate()] yields once the process is over: the
    return code, and for each stream what its [decode()] gives, [None]
    when the bytes do not decode ([UnicodeDecodeError]). *)
Record completed : Type := {
  returncode : option Z;
  stdout_decoded : option string;
  stderr_decoded : option string
}.

Definition text_of (decoded : option string) : string :=
  match decoded with
  | Some s => s
  | None => EmptyString
  end.

(** The text of a stream that decodes. *)
Definition stdout (out : completed) : string := text_of (stdout_decoded out).
Definition stderr (out : completed) : string := text_of (stderr_decoded out).

(** A spawned process: its [communicate()] and whether it is already
    gone when [kill()] is called ([ProcessLookupError]). *)
Record process : Type := {
  communicate : awaitable completed;
  gone : bool
}.

(** What [run_shell] does to the outside. *)
Inductive effect : Type :=
| Spawn (cmd : string)
| Kill (cmd : string).

(** How a call ends: with a value, with an exception that is an
    [asyncio.TimeoutError], or with another exception. *)
Inductive called (A : Type) : Type :=
| Returned (a : A)
| RaisedTimeout
| RaisedOther (e : exn).
Arguments Returned {A} a.
Arguments RaisedTimeout {A}.
Arguments RaisedOther {A} e.

(** An operation passed to [run] that is not a [str]: its
    [__qualname__], whether it is a coroutine object
    ([asyncio.iscoroutine]), and how calling it in a worker thread ends. *)
Record callable (A : Type) : Type := {
  qualname : string;
  is_coroutine : bool;
  call : awaitable (called A)
}.
Arguments qualname {A} _.
Arguments is_coroutine {A} _.
Arguments call {A} _.

Inductive operation (A : Type) : Type :=
| Command (cmd : string)
| Callable (f : callable A).
Arguments Command {A} cmd.
Arguments Callable {A} f.

(** What the caller names an operation by. *)
Definition identity {A : Type} (op : operation A) : string :=
  match op with
  | Command cmd => cmd
  | Callable f => qualname f
  end.

Section Runner.
(** [repr] of a [float], Python's builtin. *)
Variable float_repr : spec_float -> string.
(** [asyncio.create_subprocess_shell]. *)
Variable create_subprocess_shell : string -> process.

(** [f"{timeout}"] *)
Definition show_timeout (timeout : option seconds) : string :=
  match timeout with
  | None => "None"
  | Some (SecInt n) => PyStr.of_int n
  | Some (SecFloat f) => float_repr f
  end.

(** [process.returncode or 0] *)
Definition returncode_or_0 (rc : option Z) : Z :=
  match rc with
  | Some n => n
  | None => 0
  end.

Definition run_shell (cmd : string) (timeout : option seconds)
    (truncate_after : option Z) : result (Z * string * string) * list effect :=
  let process := create_subprocess_shell cmd in
  match wait_for (communicate process) timeout with
  | Finished out =>
      match stdout_decoded out, stderr_decoded out with
      | Some out_text, Some err_text =>
          (Return (returncode_or_0 (returncode out),
                   maybe_truncate out_text truncate_after,
                   maybe_truncate err_text truncate_after),
           [Spawn cmd])
      | _, _ => (Raise UnicodeDecodeError, [Spawn cmd])
      end
  | Expired =>
      (Raise (TimeoutError
                ("Command '" ++ cmd ++ "' timed out after "
                 ++ show_timeout timeout ++ " seconds")),
       if gone process then [Spawn cmd] else [Spawn cmd; Kill cmd])
  end.

(** The operation is started and not done by the deadline [t]. *)
Definition exceeds {A : Type} (op : operation A) (t : seconds) : bool :=
  match op with
  | Command cmd => negb (done_by (communicate (create_subprocess_shell cmd)) t)
  | Callable f => negb (is_coroutine f) && negb (done_by (call f) t)
  end.

(** What [run] returns: the triple of [run_shell], or the callable's
    own result. *)
Inductive outcome (A : Type) : Type :=
| Shell (r : Z * string * string)
| Plain (a : A).
Arguments Shell {A} r.
Arguments Plain {A} a.

Definition run {A : Type} (op : operation A) (timeout : option seconds)
    (truncate_after : option Z) : result (outcome A) * list effect :=
  match op with
  | Command cmd =>
      match run_shell cmd timeout truncate_after with
      | (Return r, fx) => (Return (Shell r), fx)
      | (Raise e, fx) => (Raise e, fx)
      end
  | Callable f =>
      (* a coroutine object is called, which it cannot be *)
      if is_coroutine f then (Raise TypeError, [])
      else
        match wait_for (call f) timeout with
        | Finished (Returned a) => (Return (Plain a), [])
        | Finished (RaisedOther e) => (Raise e, [])
        | Finished RaisedTimeout | Expired =>
            (Raise (TimeoutError
                      ("Operation timed out after "
                       ++ show_timeout timeout ++ " seconds")),
             [])
        end
  end.
End Runner.
Arguments Shell {A} r.
Arguments Plain {A} a.

End Run.

(** ** Python's [float]: IEEE 754 binary64, round to nearest even *)
Module Float64.

Definition prec : Z := 53.
Definition emax : Z := 1024.

(** An [int] as an exact, not yet rounded, binary number. *)
Definition exact (n : Z) : spec_float :=
  match n with
  | Z0 => S754_zero false
  | Zpos p => S754_finite false p 0
  | Zneg p => S754_finite true p 0
  end.

(** [float(n)] for an [int]: the nearest double; too large an [int]
    raises [OverflowError]. *)
Definition of_int (n : Z) : result spec_float :=
  match binary_normalize prec emax n 0 false with
  | S754_infinity _ => Raise OverflowError
  | f => Return f
  end.

(** [a / b] for two [int]s: the correctly rounded quotient. *)
Definition true_div (a b : Z) : result spec_float :=
  if b =? 0 then Raise ZeroDivisionError
  else match SFdiv prec emax (exact a) (exact b) with
       | S754_infinity _ => Raise OverflowError
       | f => Return f
       end.

(** [n * f] for an [int] and a [float]: the [int] is converted first. *)
Definition int_mul (n : Z) (f : spec_float) : result spec_float :=
  match of_int n with
  | Return fn => Return (SFmul prec emax fn f)
  | Raise e => Raise e
  end.

(** [m / 2^k] rounded to the nearest integer, ties to even. *)
Definition round_shift (m : Z) (k : Z) : Z :=
  let q := Z.shiftr m k in
  let r := m - Z.shiftl q k in
  let half := Z.shiftl 1 (k - 1) in
  if r <? half then q
  else if half <? r then q + 1
  else if Z.even q then q else q + 1.

(** [round(f)]: the nearest [int], ties to even; raises on a NaN and
    on an infinity. *)
Definition round (f : spec_float) : result Z :=
  match f with
  | S754_zero _ => Return 0
  | S754_nan => Raise ValueError
  | S754_infinity _ => Raise OverflowError
  | S754_finite s m e =>
      let a := if 0 <=? e then Z.shiftl (Zpos m) e
               else round_shift (Zpos m) (- e) in
      Return (if s then - a else a)
  end.

(** [round(n * f)] *)
Definition round_times (n : Z) (f : spec_float) : result Z :=
  match int_mul n f with
  | Return p => round p
  | Raise e => Raise e
  end.

(** [round(n / f)] for an [int] and a [float]. *)
Definition round_over (n : Z) (f : spec_float) : result Z :=
  match of_int n with
  | Return fn =>
      match f with
      | S754_zero _ => Raise ZeroDivisionError
      | _ => round (SFdiv prec emax fn f)
      end
  | Raise e => Raise e
  end.

End Float64.

(** ** Python values that reach the tool as [text] and [coordinate] *)
Module PyVal.

#[local] Set Warnings "-register-all".
Inductive pyval : Type :=
| VNone
| VBool (b : bool)
| VInt (n : Z)
| VStr (s : string)
| VList (items : list pyval)
| VTuple (items : list pyval).

Definition is_none (v : pyval) : bool :=
  match v with VNone => true | _ => false end.

(** [isinstance(v, list)] *)
Definition is_list (v : pyval) : bool :=
  match v with VList _ => true | _ => false end.

(** [isinstance(v, str)] *)
Definition is_str (v : pyval) : bool :=
  match v with VStr _ => true | _ => false end.

(** [isinstance(v, int)]: a [bool] is an [int] too. *)
Definition is_int (v : pyval) : bool :=
  match v with VInt _ | VBool _ => true | _ => false end.

(** The number an [int] (or [bool]) stands for. *)
Definition int_value (v : pyval) : Z :=
  match v with
  | VInt n => n
  | VBool true => 1
  | _ => 0
  end.

(** The items of a list (or tuple). *)
Definition items_of (v : pyval) : list pyval :=
  match v with
  | VList items | VTuple items => items
  | _ => []
  end.

(** [v[i]] on a sequence that is long enough. *)
Definition item (v : pyval) (i : nat) : pyval := nth i (items_of v) VNone.

Definition hex_digit (n : N) : ascii :=
  match String.get (N.to_nat n) "0123456789abcdef" with
  | Some c => c
  | None => "0"%char
  end.

Definition backslash : ascii := ascii_of_N 92.
Definition quote1 : ascii := ascii_of_N 39.
Definition quote2 : ascii := ascii_of_N 34.

(** One character inside [repr(s)], [quote] being the quote in use. *)
Definition escape_char (quote c : ascii) : string :=
  let n := N_of_ascii c in
  if Ascii.eqb c quote || Ascii.eqb c backslash
  then String backslash (String c EmptyString)
  else if (n =? 9)%N then String backslash "t"
  else if (n =? 10)%N then String backslash "n"
  else if (n =? 13)%N then String backslash "r"
  else if ((n <? 32) || ((127 <=? n) && (n <=? 160)) || (n =? 173))%N
  then String backslash
         (String "x" (String (hex_digit (n / 16)) (String (hex_digit (n mod 16)) EmptyString)))
  else String c EmptyString.

Fixpoint escape (quote : ascii) (s : string) : string :=
  match s with
  | EmptyString => EmptyString
  | String c t => escape_char quote c ++ escape quote t
  end.

(** [repr(s)] for a [str]: single quotes, unless [s] holds a single
    quote and no double quote. *)
Definition repr_str (s : string) : string :=
  let quote :=
    if PyStr.contains (String quote1 EmptyString) s
       && negb (PyStr.contains (String quote2 EmptyString) s)
    then quote2 else quote1 in
  String quote (escape quote s ++ String quote EmptyString).

(** [repr(v)] *)
Fixpoint repr (v : pyval) : string :=
  match v with
  | VNone => "None"
  | VBool true => "True"
  | VBool false => "False"
  | VInt n => PyStr.of_int n
  | VStr s => repr_str s
  | VList items => "[" ++ PyStr.join ", " (map repr items) ++ "]"
  | VTuple [x] => "(" ++ repr x ++ ",)"
  | VTuple items => "(" ++ PyStr.join ", " (map repr items) ++ ")"
  end.

(** [str(v)], which is what an f-string puts for [{v}]. *)
Definition str (v : pyval) : string :=
  match v with
  | VStr s => s
  | _ => repr v
  end.

End PyVal.

(** ** Python's [range] *)
Module PyRange.

(** [range(start, stop, step)] as a list; a zero [step] raises
    [ValueError]. *)
Definition range (start stop step : Z) : result (list Z) :=
  if step =? 0 then Raise ValueError
  else
    let count :=
      if 0 <? step then (stop - start + step - 1) / step
      else (start - stop - step - 1) / (- step) in
    Return (map (fun k => start + Z.of_nat k * step) (seq 0 (Z.to_nat count))).

End PyRange.

(** ** [computer.py]: the computer tool *)
Module Computer.
Import PyVal.
Local Open Scope string_scope.

Definition TYPING_DELAY_MS : Z := 12.
Definition target_width : Z := 1280.
Definition target_height : Z := 800.

(** Modelled from the spec: [ToolResult] of [tools/base.py], which is not
    among the sources; its three optional fields, all [None] unless
    given ([image] is passed as [base64_image]). *)
Record ToolResult : Type := {
  output : option string;
  error : option string;
  base64_image : option string
}.

Definition empty_result : ToolResult :=
  {| output := None; error := None; base64_image := None |}.

(** The fields of a [ComputerTool] that [__init__] sets. *)
Record ComputerTool : Type := {
  width : Z;
  height : Z;
  display_num : option Z;
  x_scaling_factor : spec_float;
  y_scaling_factor : spec_float;
  scaling_enabled : bool
}.

(** [__init__], given what [pyautogui.size()] answers. *)
Definition init (size : Z * Z) : result ComputerTool :=
  let '(w, h) := size in
  match Float64.true_div w target_width with
  | Raise e => Raise e
  | Return fx =>
      match Float64.true_div h target_height with
      | Raise e => Raise e
      | Return fy =>
          Return {| width := w; height := h; display_num := Some 1;
                    x_scaling_factor := fx; y_scaling_factor := fy;
                    scaling_enabled := true |}
      end
  end.

Definition scale_coordinates (self : ComputerTool) (x y : Z) : result (Z * Z) :=
  if negb (scaling_enabled self) then Return (x, y)
  else
    match Float64.round_times x (x_scaling_factor self) with
    | Raise e => Raise e
    | Return scaled_x =>
        match Float64.round_times y (y_scaling_factor self) with
        | Raise e => Raise e
        | Return scaled_y => Return (scaled_x, scaled_y)
        end
    end.

(** The calls made to the input-injection library, in order. *)
Inductive event : Type :=
| MoveTo (x y : Z)
| MouseDown
| MouseUp
| Hotkey (keys : list string)
| Press (key : string)
| Typewrite (text : string) (interval : spec_float)
| Click
| RightClick
| MiddleClick
| DoubleClick.

(** A step of the tool: from the events so far to a result and the
    events after it. *)
Definition M (A : Type) : Type := list event -> result A * list event.

Definition ret {A : Type} (a : A) : M A := fun tr => (Return a, tr).
Definition raise {A : Type} (e : exn) : M A := fun tr => (Raise e, tr).
Definition bind {A B : Type} (m : M A) (k : A -> M B) : M B :=
  fun tr =>
    match m tr with
    | (Return a, tr') => k a tr'
    | (Raise e, tr') => (Raise e, tr')
    end.
Definition emit (e : event) : M unit := fun tr => (Return tt, (tr ++ [e])%list).
Definition lift {A : Type} (r : result A) : M A := fun tr => (r, tr).

Notation "x <- m ;; k" := (bind m (fun x => k))
  (at level 61, m at next level, right associativity).
Notation "m ;; k" := (bind m (fun _ => k))
  (at level 61, right associativity).

Section Tool.
(** The screen and pointer, as capabilities. *)
Variable Image : Type.
(** [pyautogui.position()] after the given events. *)
Variable position : list event -> Z * Z.
(** [mss.grab] of the primary monitor after the given events. *)
Variable grab : list event -> Image.
(** [img.resize((w, h), LANCZOS)] *)
Variable resize : Image -> Z -> Z -> Image.
(** PNG encoding followed by base64, as text. *)
Variable png_base64 : Image -> string.

Definition get_position : M (Z * Z) := fun tr => (Return (position tr), tr).

Definition screenshot (self : ComputerTool) : M ToolResult :=
  fun tr =>
    let img := grab tr in
    let img := if scaling_enabled self
               then resize img target_width target_height else img in
    (Return {| output := None; error := None;
               base64_image := Some (png_base64 img) |}, tr).

(** [all(isinstance(i, int) and i >= 0 for i in coordinate)] *)
Definition non_negative_ints (coordinate : pyval) : bool :=
  forallb (fun i => is_int i && (0 <=? int_value i)%Z) (items_of coordinate).

(** The [key] branch: a hotkey for a text that holds [Command] or
    [command], a single press otherwise. *)
Definition key_event (text : string) : event :=
  if PyStr.contains "Command" text || PyStr.contains "command" text
  then Hotkey (PyStr.split "+" (PyStr.replace "_l" "" (PyStr.lower text)))
  else Press text.

(** The call of a click action. *)
Definition click_event (action : string) : event :=
  if action =? "left_click" then Click
  else if action =? "right_click" then RightClick
  else if action =? "middle_click" then MiddleClick
  else DoubleClick.

(** [ComputerTool.__call__] *)
Definition call (self : ComputerTool) (action : string)
    (text coordinate : pyval) : M ToolResult :=
  if (action =? "mouse_move") || (action =? "left_click_drag") then
    if is_none coordinate then
      raise (ToolError ("coordinate is required for " ++ action))
    else if negb (is_none text) then
      raise (ToolError ("text is not accepted for " ++ action))
    else if negb (is_list coordinate)
            || negb (Z.of_nat (List.length (items_of coordinate)) =? 2)%Z then
      raise (ToolError (str coordinate ++ " must be a tuple of length 2"))
    else if negb (non_negative_ints coordinate) then
      raise (ToolError (str coordinate ++ " must be a tuple of non-negative ints"))
    else if (width self <? int_value (item coordinate 0))%Z
            || (height self <? int_value (item coordinate 1))%Z then
      raise (ToolError ("Coordinates " ++ str (item coordinate 0) ++ ", "
                        ++ str (item coordinate 1) ++ " are out of bounds"))
    else
      xy <- lift (scale_coordinates self (int_value (item coordinate 0))
                                         (int_value (item coordinate 1))) ;;
      if action =? "mouse_move" then
        emit (MoveTo (fst xy) (snd xy)) ;;
        ret empty_result
      else
        _ <- get_position ;;
        emit MouseDown ;;
        emit (MoveTo (fst xy) (snd xy)) ;;
        emit MouseUp ;;
        ret empty_result
  else if (action =? "key") || (action =? "type") then
    if is_none text then
      raise (ToolError ("text is required for " ++ action))
    else if negb (is_none coordinate) then
      raise (ToolError ("coordinate is not accepted for " ++ action))
    else
      match text with
      | VStr text =>
          if action =? "key" then
            emit (key_event text) ;;
            ret empty_result
          else
            interval <- lift (Float64.true_div TYPING_DELAY_MS 1000) ;;
            emit (Typewrite text interval) ;;
            screenshot self
      | _ => raise (ToolErrorOutput (str text ++ " must be a string"))
      end
  else if (action =? "left_click") || (action =? "right_click")
          || (action =? "double_click") || (action =? "middle_click")
          || (action =? "screenshot") || (action =? "cursor_position") then
    if negb (is_none text) then
      raise (ToolError ("text is not accepted for " ++ action))
    else if negb (is_none coordinate) then
      raise (ToolError ("coordinate is not accepted for " ++ action))
    else if action =? "screenshot" then
      screenshot self
    else if action =? "cursor_position" then
      xy <- get_position ;;
      scaled <- lift (scale_coordinates self (fst xy) (snd xy)) ;;
      ret {| output := Some ("X=" ++ PyStr.of_int (fst scaled)
                             ++ ",Y=" ++ PyStr.of_int (snd scaled));
             error := None; base64_image := None |}
    else
      emit (click_event action) ;;
      screenshot self
  else
    raise (ToolError ("Invalid action: " ++ action)).
End Tool.

Definition TYPING_GROUP_SIZE : Z := 50.

(** The [Action] literal: the names a caller may pass. *)
Definition Action : list string :=
  ["key"; "type"; "mouse_move"; "left_click"; "left_click_drag";
   "right_click"; "middle_click"; "double_click"; "screenshot";
   "cursor_position"].

(** [chunks(s, chunk_size)]: the slices [s[i : i + chunk_size]] for [i]
    in [range(0, len(s), chunk_size)]. *)
Definition chunks (s : string) (chunk_size : Z) : result (list string) :=
  match PyRange.range 0 (PyStr.len s) chunk_size with
  | Raise e => Raise e
  | Return starts =>
      Return (map (fun i => PyStr.slice s i (i + chunk_size)) starts)
  end.

(** A [dict] with [str] keys, in insertion order. *)
Definition dict : Type := list (string * pyval).

(** [d[key]], where present. *)
Fixpoint dict_get (d : dict) (key : string) : option pyval :=
  match d with
  | [] => None
  | (k, v) :: rest => if k =? key then Some v else dict_get rest key
  end.

(** [d[key] = v]: a key already present keeps its place. *)
Fixpoint dict_set (d : dict) (key : string) (v : pyval) : dict :=
  match d with
  | [] => [(key, v)]
  | (k, v') :: rest =>
      if k =? key then (k, v) :: rest else (k, v') :: dict_set rest key v
  end.

(** [{**d, **more}] *)
Definition dict_update (d more : dict) : dict :=
  fold_left (fun acc kv => dict_set acc (fst kv) (snd kv)) more d.

Definition name : string := "computer".
Definition api_type : string := "computer_20241022".

(** An [int | None] as a value. *)
Definition of_option_int (n : option Z) : pyval :=
  match n with
  | Some k => VInt k
  | None => VNone
  end.

(** The [options] property. *)
Definition options (self : ComputerTool) : dict :=
  dict_update []
    [("display_width_px", VInt (width self));
     ("display_height_px", VInt (height self));
     ("display_number", of_option_int (display_num self))].

(** [to_params]: [{"name": ..., "type": ..., **self.options}] *)
Definition to_params (self : ComputerTool) : dict :=
  dict_update (dict_update [] [("name", VStr name); ("type", VStr api_type)])
              (options self).

End Computer.

(** ** The mapper's inverse, in the specification's words

    The specification has a second direction, [to_logical], which
    [computer.py] does not define: divide by the same factors and round. *)
Module Spec.

(** [r] is an integer nearest to the quotient [num / den], for a positive
    [den]: it is at most one half away from it. *)
Definition nearest (r num den : Z) : Prop := 2 * Z.abs (den * r - num) <= den.

Definition to_logical (self : Computer.ComputerTool) (x y : Z) : result (Z * Z) :=
  if negb (Computer.scaling_enabled self) then Return (x, y)
  else
    match Float64.round_over x (Computer.x_scaling_factor self) with
    | Raise e => Raise e
    | Return lx =>
        match Float64.round_over y (Computer.y_scaling_factor self) with
        | Raise e => Raise e
        | Return ly => Return (lx, ly)
        end
    end.

End Spec.

(** ** A concrete environment, for running the definitions *)
Module Example.

(** Every process and every callable here takes five seconds. *)
Definition done_in_five (t : Run.seconds) : bool :=
  match t with
  | Run.SecInt n => 5 <=? n
  | Run.SecFloat f => SFleb (S754_finite false 5 0) f
  end.

Definition spawn (cmd : string) : Run.process :=
  {| Run.communicate :=
       {| Run.value := {| Run.returncode := Some 0;
                        Run.stdout_decoded := Some "";
                        Run.stderr_decoded := Some "" |};
          Run.done_by := done_in_five |};
     Run.gone := false |}.

Definition slow_fetch : Run.callable unit :=
  {| Run.qualname := "slow_fetch";
     Run.is_coroutine := false;
     Run.call := {| Run.value := Run.Returned tt; Run.done_by := done_in_five |} |}.

(** The double nearest to 0.1, and a [repr] that knows it. *)
Definition tenth : spec_float := S754_finite false 7205759403792794 (-56).
Definition float_repr (f : spec_float) : string :=
  if SFeqb f tenth then "0.1" else "nan".

(** A 1920x1200 display, with the pointer resting at its centre, and a
    1024x768 one.  An image is the list of events it was taken after. *)
Definition tool_of (size : Z * Z) : Computer.ComputerTool :=
  match Computer.init size with
  | Return self => self
  | Raise _ =>
      {| Computer.width := fst size; Computer.height := snd size;
         Computer.display_num := None;
         Computer.x_scaling_factor := S754_nan;
         Computer.y_scaling_factor := S754_nan;
         Computer.scaling_enabled := true |}
  end.
Definition wuxga : Computer.ComputerTool := tool_of (1920, 1200).
Definition xga : Computer.ComputerTool := tool_of (1024, 768).

Definition Image : Type := list Computer.event.
Definition position (tr : list Computer.event) : Z * Z := (960, 600).
Definition grab (tr : list Computer.event) : Image := tr.
Definition resize (img : Image) (w h : Z) : Image := img.
Definition png_base64 (img : Image) : string := "iVBORw0KGgo=".

Definition call := Computer.call Image position grab resize png_base64.

End Example.

(** * Properties *)

(** ** Strings *)
Section StringFacts.
Import PyStr.

Lemma length_append (a b : string) :
  String.length (a ++ b) = (String.length a + String.length b)%nat.
Proof. induction a as [|c a IH]; simpl; [reflexivity | now rewrite IH]. Qed.

Lemma take_length (k : nat) (s : string) :
  String.length (take k s) = Nat.min k (String.length s).
Proof.
  revert s; induction k as [|k IH]; intros [|c s]; simpl; try reflexivity.
  now rewrite IH.
Qed.

Lemma take_all (k : nat) (s : string) :
  (String.length s <= k)%nat -> take k s = s.
Proof.
  revert s; induction k as [|k IH]; intros [|c s] H; simpl in *; try reflexivity.
  - inversion H.
  - f_equal. apply IH. lia.
Qed.

Lemma take_take_append (k : nat) (s t : string) :
  (k <= String.length s)%nat -> take k (take k s ++ t) = take k s.
Proof.
  revert s; induction k as [|k IH]; intros [|c s] H; simpl in *.
  - now destruct t.
  - reflexivity.
  - inversion H.
  - f_equal. apply IH. lia.
Qed.

Lemma get_take (k i : nat) (s : string) :
  (i < k)%nat -> String.get i (take k s) = String.get i s.
Proof.
  revert i s; induction k as [|k IH]; intros i [|c s] H; simpl;
    try reflexivity; try lia.
  destruct i as [|i]; [reflexivity | apply IH; lia].
Qed.

Lemma get_append_left (i : nat) (a b : string) :
  (i < String.length a)%nat -> String.get i (a ++ b) = String.get i a.
Proof.
  revert i; induction a as [|c a IH]; intros i H; simpl in *; [lia|].
  destruct i as [|i]; [reflexivity | apply IH; lia].
Qed.

Lemma slice_to_take (s : string) (n : Z) :
  0 <= n -> slice_to s n = take (Z.to_nat n) s.
Proof.
  intros Hn. unfold slice_to, len.
  destruct (n <? 0) eqn:E; [apply Z.ltb_lt in E; lia|].
  destruct (Z.le_gt_cases n (Z.of_nat (String.length s))) as [H|H].
  - now rewrite Z.min_l.
  - rewrite Z.min_r, Nat2Z.id by lia.
    rewrite !take_all; [reflexivity | lia | lia].
Qed.

Lemma prefix_refl_append (x b : string) : String.prefix x (x ++ b) = true.
Proof.
  induction x as [|c x IH]; simpl; [now destruct b|].
  destruct (ascii_dec c c) as [_|N]; [exact IH | now elim N].
Qed.

Lemma contains_prefix (x h : string) :
  String.prefix x h = true -> contains x h = true.
Proof. destruct h; simpl; intros ->; reflexivity. Qed.

Lemma contains_here (x b : string) : contains x (x ++ b) = true.
Proof. apply contains_prefix, prefix_refl_append. Qed.

Lemma contains_append (a x b : string) : contains x (a ++ x ++ b) = true.
Proof.
  induction a as [|c a IH].
  - simpl. apply contains_here.
  - simpl. rewrite IH. apply orb_true_r.
Qed.
Lemma contains_append_r (a x b : string) :
  contains x b = true -> contains x (a ++ b) = true.
Proof.
  intros H. induction a as [|c a IH]; simpl; [exact H|].
  rewrite IH. apply orb_true_r.
Qed.

Lemma split_not_nil (sep : ascii) (s : string) : split sep s <> [].
Proof.
  destruct s as [|c t]; simpl; [discriminate|].
  destruct (Ascii.eqb c sep); [discriminate|].
  destruct (split sep t); discriminate.
Qed.

Lemma join_split (sep : ascii) (s : string) :
  join (String sep EmptyString) (split sep s) = s.
Proof.
  induction s as [|c t IH]; simpl; [reflexivity|].
  destruct (Ascii.eqb c sep) eqn:E.
  - apply Ascii.eqb_eq in E; subst c.
    destruct (split sep t) as [|h r] eqn:Et; [now apply split_not_nil in Et|].
    simpl in *. now rewrite IH.
  - destruct (split sep t) as [|h r] eqn:Et; [now apply split_not_nil in Et|].
    destruct r as [|h' r]; simpl in *; now rewrite <- IH.
Qed.

Lemma contains_char_cons (sep c : ascii) (t : string) :
  contains (String sep EmptyString) (String c t)
  = Ascii.eqb sep c || contains (String sep EmptyString) t.
Proof.
  simpl. destruct (ascii_dec sep c) as [->|N].
  - rewrite Ascii.eqb_refl. now destruct t.
  - apply Ascii.eqb_neq in N. now rewrite N.
Qed.

Lemma split_pieces_have_no_sep (sep : ascii) (s : string) :
  Forall (fun piece => contains (String sep EmptyString) piece = false)
         (split sep s).
Proof.
  induction s as [|c t IH]; simpl.
  - constructor; [reflexivity | constructor].
  - destruct (Ascii.eqb c sep) eqn:E.
    + constructor; [reflexivity | exact IH].
    + destruct (split sep t) as [|h r]; [repeat constructor|].
      * rewrite contains_char_cons, Ascii.eqb_sym, E. reflexivity.
      * inversion IH; subst. constructor; [|assumption].
        rewrite contains_char_cons, Ascii.eqb_sym, E. assumption.
Qed.
End StringFacts.

(** ** The bounded runner *)

(** C3. For a positive limit [n]: a string of at most [n] characters is
    returned as it is (so truncating it again changes nothing); a longer
    one becomes its first [n] characters followed by the notice marker,
    so the result has [n] plus the marker's length characters and its
    first [n] characters are those of the input. *)
Theorem maybe_truncate_positive_limit (s : string) (n : Z) (Hn : 0 < n) :
  (PyStr.len s <= n ->
     Run.maybe_truncate s (Some n) = s /\
     Run.maybe_truncate (Run.maybe_truncate s (Some n)) (Some n) = s) /\
  (n < PyStr.len s ->
     Run.maybe_truncate s (Some n)
       = PyStr.take (Z.to_nat n) s ++ Run.TRUNCATED_MESSAGE /\
     PyStr.len (PyStr.take (Z.to_nat n) s) = n /\
     PyStr.len (Run.maybe_truncate s (Some n)) = n + PyStr.len Run.TRUNCATED_MESSAGE /\
     PyStr.take (Z.to_nat n) (Run.maybe_truncate s (Some n)) = PyStr.take (Z.to_nat n) s /\
     forall i : nat, (i < Z.to_nat n)%nat ->
       String.get i (Run.maybe_truncate s (Some n)) = String.get i s).
Proof.
  assert (Hunder : PyStr.len s <= n -> Run.maybe_truncate s (Some n) = s).
  { intros H. unfold Run.maybe_truncate; simpl.
    apply Z.leb_le in H. rewrite H, orb_true_r. reflexivity. }
  split.
  - intros H. rewrite (Hunder H). split; [reflexivity | exact (Hunder H)].
  - intros H.
    assert (Hcut : Run.maybe_truncate s (Some n)
                   = PyStr.take (Z.to_nat n) s ++ Run.TRUNCATED_MESSAGE).
    { unfold Run.maybe_truncate; simpl.
      replace (n =? 0) with false by (symmetry; apply Z.eqb_neq; lia).
      replace (PyStr.len s <=? n) with false by (symmetry; apply Z.leb_gt; lia).
      simpl. rewrite slice_to_take by lia. reflexivity. }
    assert (Hlen : String.length (PyStr.take (Z.to_nat n) s) = Z.to_nat n).
    { rewrite take_length. unfold PyStr.len in H. lia. }
    rewrite Hcut. repeat split.
    + unfold PyStr.len. rewrite Hlen. lia.
    + unfold PyStr.len. rewrite length_append, Hlen. lia.
    + apply take_take_append. unfold PyStr.len in H. lia.
    + intros i Hi. rewrite get_append_left by lia. apply get_take. exact Hi.
Qed.

Lemma maybe_truncate_positive_limit_witness :
  0 < 3 /\
  Run.maybe_truncate "abcdef" (Some 3) = "abc" ++ Run.TRUNCATED_MESSAGE /\
  Run.maybe_truncate "abc" (Some 3) = "abc".
Proof.
  split; [lia|].
  destruct (maybe_truncate_positive_limit "abcdef" 3 ltac:(lia)) as [_ Hover].
  destruct (maybe_truncate_positive_limit "abc" 3 ltac:(lia)) as [Hunder _].
  split.
  - exact (proj1 (Hover ltac:(vm_compute; reflexivity))).
  - exact (proj1 (Hunder ltac:(vm_compute; discriminate))).
Defined.

(** C10. A limit of [None] or of [0] switches truncation off: the content
    comes back unchanged, whatever its length, without the notice marker. *)
Theorem maybe_truncate_disabled (s : string) :
  Run.maybe_truncate s None = s /\ Run.maybe_truncate s (Some 0) = s.
Proof. split; reflexivity. Qed.

(** C4, as amended. When an operation is not done by its deadline, [run]
    raises a [TimeoutError] whose message carries the configured deadline;
    for a command the message carries the command text as well, for a
    callable it is the fixed text [Operation timed out after <deadline>
    seconds], which says nothing about the callable. *)
Theorem run_timeout_message
    (float_repr : spec_float -> string) (spawn : string -> Run.process)
    (A : Type) (op : Run.operation A) (t : Run.seconds) (truncate_after : option Z)
    (Hlate : Run.exceeds spawn op t = true) :
  exists msg : string,
    fst (Run.run float_repr spawn op (Some t) truncate_after) = Raise (TimeoutError msg) /\
    PyStr.contains (Run.show_timeout float_repr (Some t)) msg = true /\
    match op with
    | Run.Command cmd =>
        PyStr.contains cmd msg = true /\
        msg = "Command '" ++ cmd ++ "' timed out after "
              ++ Run.show_timeout float_repr (Some t) ++ " seconds"
    | Run.Callable _ =>
        msg = "Operation timed out after "
              ++ Run.show_timeout float_repr (Some t) ++ " seconds"
    end.
Proof.
  destruct op as [cmd | f]; simpl in Hlate.
  - apply negb_true_iff in Hlate.
    exists ("Command '" ++ cmd ++ "' timed out after "
            ++ Run.show_timeout float_repr (Some t) ++ " seconds").
    unfold Run.run, Run.run_shell, Run.wait_for. rewrite Hlate. simpl fst.
    repeat split.
    + apply (contains_append_r "Command '"), (contains_append_r cmd).
      apply (contains_append "' timed out after ").
    + apply (contains_append "Command '" cmd).
  - apply andb_true_iff in Hlate. destruct Hlate as [Hobj Hlate].
    apply negb_true_iff in Hobj, Hlate.
    exists ("Operation timed out after "
            ++ Run.show_timeout float_repr (Some t) ++ " seconds").
    unfold Run.run, Run.wait_for. rewrite Hobj, Hlate. simpl fst.
    repeat split.
    apply (contains_append "Operation timed out after ").
Qed.

Lemma run_timeout_message_witness :
  Run.exceeds Example.spawn (Run.Command (A := unit) "sleep 5")
              (Run.SecFloat Example.tenth) = true /\
  exists msg : string,
    fst (Run.run Example.float_repr Example.spawn (Run.Command (A := unit) "sleep 5")
                 (Some (Run.SecFloat Example.tenth)) (Some Run.MAX_RESPONSE_LEN))
      = Raise (TimeoutError msg) /\
    PyStr.contains "0.1" msg = true /\
    PyStr.contains "sleep 5" msg = true /\
    msg = "Command 'sleep 5' timed out after 0.1 seconds".
Proof.
  split; [reflexivity|].
  exact (run_timeout_message Example.float_repr Example.spawn unit
           (Run.Command "sleep 5") (Run.SecFloat Example.tenth)
           (Some Run.MAX_RESPONSE_LEN) eq_refl).
Defined.

(** C4, as stated, fails for a callable: the message of its timeout does
    not hold the callable's name. *)
Lemma run_callable_timeout_is_anonymous :
  Run.exceeds Example.spawn (Run.Callable Example.slow_fetch) (Run.SecInt 1) = true /\
  fst (Run.run Example.float_repr Example.spawn (Run.Callable Example.slow_fetch)
               (Some (Run.SecInt 1)) (Some Run.MAX_RESPONSE_LEN))
    = Raise (TimeoutError "Operation timed out after 1 seconds") /\
  PyStr.contains (Run.identity (Run.Callable Example.slow_fetch))
                 "Operation timed out after 1 seconds" = false.
Proof. repeat split. Qed.

(** ** Floating-point arithmetic

    What the program needs of binary64: conversion of the coordinates is
    exact, and a quotient of two sizes and a product with a coordinate are
    each within one unit in the last place of the exact value. *)

Lemma digits2_bounds (p : positive) :
  2 ^ (Zpos (digits2_pos p) - 1) <= Zpos p < 2 ^ Zpos (digits2_pos p).
Proof.
  induction p as [p IH | p IH |]; simpl digits2_pos.
  - rewrite Pos2Z.inj_succ.
    replace (Z.succ (Zpos (digits2_pos p)) - 1) with (Z.succ (Zpos (digits2_pos p) - 1)) by lia.
    rewrite !Z.pow_succ_r by lia. lia.
  - rewrite Pos2Z.inj_succ.
    replace (Z.succ (Zpos (digits2_pos p)) - 1) with (Z.succ (Zpos (digits2_pos p) - 1)) by lia.
    rewrite !Z.pow_succ_r by lia. lia.
  - simpl. lia.
Qed.

Lemma Zdigits2_bounds (m : Z) :
  0 < m -> 2 ^ (Zdigits2 m - 1) <= m < 2 ^ Zdigits2 m.
Proof. destruct m as [|p|p]; try lia. intros _. apply digits2_bounds. Qed.

Lemma Zdigits2_pos (m : Z) : 0 < m -> 0 < Zdigits2 m.
Proof. destruct m; simpl; lia. Qed.

(** The number of digits is determined by the bounds. *)
Lemma Zdigits2_unique (m d : Z) :
  2 ^ (d - 1) <= m < 2 ^ d -> 0 < m -> Zdigits2 m = d.
Proof.
  intros [Hlo Hhi] Hm.
  pose proof (Zdigits2_bounds m Hm) as [Hlo' Hhi'].
  pose proof (Zdigits2_pos m Hm) as Hd.
  assert (0 < d).
  { destruct (Z.lt_ge_cases 0 d); [assumption|].
    assert (2 ^ d <= 1); [|lia].
    destruct (Z.eq_dec d 0) as [->|]; [simpl; lia|].
    rewrite Z.pow_neg_r by lia. lia. }
  destruct (Z.lt_trichotomy (Zdigits2 m) d) as [H1|[H1|H1]]; [|assumption|].
  - assert (2 ^ Zdigits2 m <= 2 ^ (d - 1)) by (apply Z.pow_le_mono_r; lia). lia.
  - assert (2 ^ d <= 2 ^ (Zdigits2 m - 1)) by (apply Z.pow_le_mono_r; lia). lia.
Qed.

Lemma shr_1_m (r : shr_record) :
  0 <= shr_m r -> shr_m (shr_1 r) = shr_m r / 2.
Proof.
  destruct r as [m r s]; simpl. intros Hm.
  destruct m as [|[p|p|]|p]; try lia; cbn [shr_m].
  - reflexivity.
  - apply Z.div_unique with 1; lia.
  - apply Z.div_unique with 0; lia.
  - reflexivity.
Qed.

Lemma iter_shr_1_m (p : positive) (r : shr_record) :
  0 <= shr_m r -> shr_m (iter_pos shr_1 p r) = shr_m r / 2 ^ Zpos p.
Proof.
  revert r; induction p as [p IH | p IH |]; intros r Hr; simpl iter_pos.
  - assert (H1 : 0 <= shr_m (shr_1 r)) by (rewrite shr_1_m by lia; apply Z.div_pos; lia).
    assert (H2 : 0 <= shr_m (iter_pos shr_1 p (shr_1 r)))
      by (rewrite IH by lia; apply Z.div_pos; [lia | apply Z.pow_pos_nonneg; lia]).
    rewrite IH, IH, shr_1_m by lia.
    rewrite !Z.div_div by (try apply Z.pow_pos_nonneg; lia).
    f_equal.
    replace (Zpos p~1) with (1 + Zpos p + Zpos p) by lia.
    rewrite !Z.pow_add_r by lia. lia.
  - assert (H2 : 0 <= shr_m (iter_pos shr_1 p r))
      by (rewrite IH by lia; apply Z.div_pos; [lia | apply Z.pow_pos_nonneg; lia]).
    rewrite IH, IH by lia.
    rewrite !Z.div_div by (try apply Z.pow_pos_nonneg; lia).
    f_equal.
    replace (Zpos p~0) with (Zpos p + Zpos p) by lia.
    rewrite !Z.pow_add_r by lia. lia.
  - rewrite shr_1_m by lia. reflexivity.
Qed.


Lemma fexp_normal (e : Z) : -1074 <= e - 53 -> fexp 53 1024 e = e - 53.
Proof. unfold fexp, emin. lia. Qed.

Lemma shr_record_of_loc_m (m : Z) (l : location) : shr_m (shr_record_of_loc m l) = m.
Proof. destruct l as [|[]]; reflexivity. Qed.

Lemma loc_of_shr_record_of_loc (m : Z) (l : location) :
  loc_of_shr_record (shr_record_of_loc m l) = l.
Proof. destruct l as [|[]]; reflexivity. Qed.

Lemma shr_fexp_shift (m e : Z) (l : location) :
  0 < m ->
  let n := Z.max 0 (fexp 53 1024 (Zdigits2 m + e) - e) in
  exists r : shr_record,
    shr_fexp 53 1024 m e l = (r, e + n) /\ shr_m r = m / 2 ^ n /\
    (n = 0 -> r = shr_record_of_loc m l).
Proof.
  intros Hm n. unfold shr_fexp, shr. subst n.
  destruct (fexp 53 1024 (Zdigits2 m + e) - e) as [|p|p] eqn:E.
  - exists (shr_record_of_loc m l). rewrite Z.add_0_r, shr_record_of_loc_m.
    simpl. rewrite Z.div_1_r. auto.
  - exists (iter_pos shr_1 p (shr_record_of_loc m l)).
    rewrite Z.max_r by lia. repeat split.
    + rewrite iter_shr_1_m by (rewrite shr_record_of_loc_m; lia).
      now rewrite shr_record_of_loc_m.
    + lia.
  - exists (shr_record_of_loc m l). rewrite Z.max_l by lia.
    rewrite Z.add_0_r, shr_record_of_loc_m. simpl. rewrite Z.div_1_r. auto.
Qed.

Lemma round_nearest_even_step (m : Z) (l : location) :
  round_nearest_even m l = m \/ round_nearest_even m l = m + 1.
Proof. destruct l as [|[]]; simpl; auto. destruct (Z.even m); auto. Qed.

Lemma binary_round_aux_normal (mx ex : Z) (lx : location) :
  let n := Zdigits2 mx - 53 in
  0 < mx -> 0 <= n -> -1074 <= ex + n -> ex + n < 971 ->
  exists (m : positive) (j : Z),
    binary_round_aux 53 1024 false mx ex lx = S754_finite false m (ex + n + j) /\
    (j = 0 \/ j = 1) /\
    2 ^ 52 <= Zpos m < 2 ^ 53 /\
    (Zpos m * 2 ^ j = mx / 2 ^ n \/ Zpos m * 2 ^ j = mx / 2 ^ n + 1) /\
    (n = 0 -> lx = loc_Exact -> Zpos m = mx /\ j = 0).
Proof.
  intros n Hmx Hn Hlo Hhi.
  pose proof (Zdigits2_bounds mx Hmx) as [Hd1 Hd2].
  assert (Hpow : 2 ^ Zdigits2 mx = 2 ^ n * 2 ^ 53).
  { rewrite <- Z.pow_add_r by lia. f_equal. lia. }
  assert (Hpow' : 2 ^ (Zdigits2 mx - 1) = 2 ^ n * 2 ^ 52).
  { rewrite <- Z.pow_add_r by lia. f_equal. lia. }
  assert (Hn2 : 0 < 2 ^ n) by (apply Z.pow_pos_nonneg; lia).
  set (q := mx / 2 ^ n).
  assert (Hq : 2 ^ 52 <= q < 2 ^ 53).
  { split.
    - apply Z.div_le_lower_bound; lia.
    - apply Z.div_lt_upper_bound; lia. }
  unfold binary_round_aux.
  destruct (shr_fexp_shift mx ex lx Hmx) as (r1 & E1 & Hr1 & Hr1').
  rewrite fexp_normal in E1, Hr1, Hr1' by lia.
  replace (Z.max 0 (Zdigits2 mx + ex - 53 - ex)) with n in E1, Hr1, Hr1' by lia.
  rewrite E1. fold q in Hr1.
  set (m1 := round_nearest_even (shr_m r1) (loc_of_shr_record r1)).
  assert (Hm1 : m1 = q \/ m1 = q + 1).
  { subst m1. rewrite <- Hr1. apply round_nearest_even_step. }
  assert (Hm1pos : 0 < m1) by lia.
  destruct (shr_fexp_shift m1 (ex + n) loc_Exact Hm1pos) as (r2 & E2 & Hr2 & _).
  rewrite E2.
  destruct (Z.lt_ge_cases m1 (2 ^ 53)) as [Hsmall | Hbig].
  - assert (Hdig : Zdigits2 m1 = 53) by (apply Zdigits2_unique; lia).
    rewrite Hdig, fexp_normal in Hr2 |- * by lia.
    replace (Z.max 0 (53 + (ex + n) - 53 - (ex + n))) with 0 in Hr2 |- * by lia.
    simpl (2 ^ 0) in Hr2. rewrite Z.div_1_r in Hr2. rewrite Hr2.
    destruct m1 as [|m|m] eqn:Em; try lia.
    exists m, 0. rewrite Z.add_0_r.
    replace (ex + n <=? 1024 - 53) with true by (symmetry; apply Z.leb_le; lia).
    repeat split; auto; try lia.
    match goal with H : n = 0 |- _ => apply Hr1' in H; subst r1 end.
    subst lx. unfold m1 in Em.
    rewrite loc_of_shr_record_of_loc, shr_record_of_loc_m in Em.
    simpl in Em. lia.
  - assert (Hm1eq : m1 = 2 ^ 53) by lia.
    assert (Hdig : Zdigits2 m1 = 54) by (apply Zdigits2_unique; lia).
    rewrite Hdig, fexp_normal in Hr2 |- * by lia.
    replace (Z.max 0 (54 + (ex + n) - 53 - (ex + n))) with 1 in Hr2 |- * by lia.
    rewrite Hm1eq in Hr2. change (2 ^ 53 / 2 ^ 1) with (2 ^ 52) in Hr2.
    rewrite Hr2. change (2 ^ 52) with (Zpos (2 ^ 52)%positive).
    exists (2 ^ 52)%positive, 1.
    replace (ex + n + 1 <=? 1024 - 53) with true by (symmetry; apply Z.leb_le; lia).
    assert (Hexact : n = 0 -> lx = loc_Exact -> False).
    { intros Hn0 ->. pose proof (Hr1' Hn0) as Er1. unfold m1 in Hm1eq.
      rewrite Er1, loc_of_shr_record_of_loc, shr_record_of_loc_m in Hm1eq.
      simpl in Hm1eq. rewrite Er1, shr_record_of_loc_m in Hr1. lia. }
    repeat split; auto; try lia; try (exfalso; auto; fail).
Qed.


Lemma pos_iter_xO (p k : positive) : Zpos (Pos.iter xO p k) = Zpos p * 2 ^ Zpos k.
Proof.
  induction k as [|k IH] using Pos.peano_ind.
  - simpl. lia.
  - rewrite Pos.iter_succ, Pos2Z.inj_succ, Z.pow_succ_r by lia.
    replace (Zpos (Pos.iter xO p k)~0) with (2 * Zpos (Pos.iter xO p k)) by lia.
    rewrite IH. lia.
Qed.

(** [float(x)] is exact below 2^53. *)
Lemma of_int_exact (x : Z) :
  0 < x < 2 ^ 53 ->
  exists (m : positive) (a : Z),
    Float64.of_int x = Return (S754_finite false m (- a)) /\
    0 <= a <= 52 /\ Zpos m = x * 2 ^ a /\ 2 ^ 52 <= Zpos m < 2 ^ 53.
Proof.
  intros [Hx0 Hx1]. destruct x as [|p|p]; try lia.
  pose proof (digits2_bounds p) as [Hd1 Hd2].
  set (d := Zpos (digits2_pos p)) in *.
  assert (Hd : 0 < d <= 53).
  { split; [subst d; lia|].
    destruct (Z.le_gt_cases d 53) as [|H]; [assumption|].
    assert (2 ^ 53 <= 2 ^ (d - 1)) by (apply Z.pow_le_mono_r; lia). lia. }
  unfold Float64.of_int, binary_normalize, binary_round, shl_align.
  unfold Float64.prec, Float64.emax.
  rewrite Z.add_0_r. fold d. rewrite fexp_normal by lia.
  assert (Hres : forall (mz : positive) (a : Z),
            0 <= a <= 52 -> Zpos mz = Zpos p * 2 ^ a -> a = 53 - d ->
            exists (m : positive) (a0 : Z),
              match binary_round_aux 53 1024 false (Zpos mz) (- a) loc_Exact with
              | S754_infinity _ => Raise OverflowError
              | f => Return f
              end = Return (S754_finite false m (- a0)) /\
              0 <= a0 <= 52 /\ Zpos m = Zpos p * 2 ^ a0 /\ 2 ^ 52 <= Zpos m < 2 ^ 53).
  { intros mz a Ha Hmz Had.
    assert (Hdig : Zdigits2 (Zpos mz) = 53).
    { apply Zdigits2_unique; [|lia]. rewrite Hmz.
      replace (2 ^ (53 - 1)) with (2 ^ (d - 1) * 2 ^ a)
        by (rewrite <- Z.pow_add_r by lia; f_equal; lia).
      replace (2 ^ 53) with (2 ^ d * 2 ^ a)
        by (rewrite <- Z.pow_add_r by lia; f_equal; lia).
      assert (0 < 2 ^ a) by (apply Z.pow_pos_nonneg; lia). nia. }
    destruct (binary_round_aux_normal (Zpos mz) (- a) loc_Exact)
      as (m & j & E & _ & Hm & _ & Hex); try (rewrite Hdig); try lia.
    destruct Hex as [Hex1 Hex2]; [lia | reflexivity |].
    rewrite E. exists m, a. subst j. rewrite Hdig in *.
    replace (- a + (53 - 53) + 0) with (- a) by lia.
    repeat split; try lia. }
  destruct (d - 53 - 0) as [|k|k] eqn:Ek.
  - replace 0 with (- 0) at 1 by reflexivity.
    apply (Hres p 0); [lia | change (2 ^ 0) with 1; lia | lia].
  - lia.
  - replace (d - 53) with (- (Zpos k)) by lia.
    apply (Hres (Pos.iter xO p k) (Zpos k)); try lia.
    apply pos_iter_xO.
Qed.


(** [W / T] is within one unit in the last place of the quotient. *)
Lemma true_div_spec (W T : Z) :
  0 < W < 2 ^ 53 -> 2 <= T < 2 ^ 53 ->
  exists (ms : positive) (b : Z),
    Float64.true_div W T = Return (S754_finite false ms (- b)) /\
    0 <= b <= 106 /\ 2 ^ 52 <= Zpos ms < 2 ^ 53 /\
    Z.abs (Zpos ms * T - W * 2 ^ b) <= T.
Proof.
  intros HW HT. unfold Float64.true_div.
  replace (T =? 0) with false by (symmetry; apply Z.eqb_neq; lia).
  destruct W as [|w|w]; try lia. destruct T as [|t|t]; try lia.
  pose proof (digits2_bounds w) as [Hw1 Hw2].
  pose proof (digits2_bounds t) as [Ht1 Ht2].
  unfold Float64.exact, SFdiv, SFdiv_core_binary, Float64.prec, Float64.emax.
  cbn [xorb Zdigits2].
  set (d1 := Zpos (digits2_pos w)) in *. set (d2 := Zpos (digits2_pos t)) in *.
  assert (Hd1 : 0 < d1 <= 53).
  { split; [subst d1; lia|].
    destruct (Z.le_gt_cases d1 53) as [|H]; [assumption|].
    assert (2 ^ 53 <= 2 ^ (d1 - 1)) by (apply Z.pow_le_mono_r; lia). lia. }
  assert (Hd2 : 2 <= d2 <= 53).
  { split.
    - destruct (Z.le_gt_cases 2 d2) as [|H]; [assumption|].
      assert (2 ^ d2 <= 2 ^ 1) by (apply Z.pow_le_mono_r; subst d2; lia).
      change (2 ^ 1) with 2 in *. lia.
    - destruct (Z.le_gt_cases d2 53) as [|H]; [assumption|].
      assert (2 ^ 53 <= 2 ^ (d2 - 1)) by (apply Z.pow_le_mono_r; lia). lia. }
  rewrite !Z.add_0_r, fexp_normal by lia.
  replace (0 - 0 - Z.min (d1 - d2 - 53) (0 - 0)) with (53 + d2 - d1) by lia.
  replace (Z.min (d1 - d2 - 53) (0 - 0)) with (d1 - d2 - 53) by lia.
  set (sh := 53 + d2 - d1).
  assert (Hsh : 0 < sh) by (subst sh; lia).
  replace (match sh with
           | 0 => Zpos w
           | Zpos _ => Z.shiftl (Zpos w) sh
           | Zneg _ => 0
           end) with (Zpos w * 2 ^ sh)
    by (destruct sh; try lia; now rewrite Z.shiftl_mul_pow2 by lia).
  set (m' := Zpos w * 2 ^ sh).
  assert (Hm' : 2 ^ 52 * 2 ^ d2 <= m' < 2 ^ 53 * 2 ^ d2).
  { subst m'.
    replace (2 ^ 52 * 2 ^ d2) with (2 ^ (d1 - 1) * 2 ^ sh)
      by (rewrite <- !Z.pow_add_r by lia; f_equal; lia).
    replace (2 ^ 53 * 2 ^ d2) with (2 ^ d1 * 2 ^ sh)
      by (rewrite <- !Z.pow_add_r by lia; f_equal; lia).
    assert (0 < 2 ^ sh) by (apply Z.pow_pos_nonneg; lia). nia. }
  assert (Ht2' : 2 ^ d2 = 2 * 2 ^ (d2 - 1)).
  { rewrite <- Z.pow_succ_r by lia. f_equal. lia. }
  pose proof (Z_div_mod m' (Zpos t) ltac:(lia)) as Hdiv.
  destruct (Z.div_eucl m' (Zpos t)) as [q r]. destruct Hdiv as [Hqr Hr].
  assert (Hq : 2 ^ 52 <= q < 2 ^ 54).
  { change (2 ^ 54) with (2 * 2 ^ 53). nia. }
  set (n := Zdigits2 q - 53).
  assert (Hn : n = 0 \/ n = 1).
  { pose proof (Zdigits2_bounds q ltac:(lia)) as [Hq1 Hq2]. subst n.
    destruct (Z.lt_ge_cases (Zdigits2 q) 53) as [H|H].
    - assert (2 ^ Zdigits2 q <= 2 ^ 52) by (apply Z.pow_le_mono_r; lia). lia.
    - destruct (Z.le_gt_cases (Zdigits2 q) 54) as [H'|H']; [lia|].
      assert (2 ^ 54 <= 2 ^ (Zdigits2 q - 1)) by (apply Z.pow_le_mono_r; lia). lia. }
  destruct (binary_round_aux_normal q (d1 - d2 - 53) (new_location (Zpos t) r))
    as (ms & j & E & Hj & Hms & Hval & _); fold n; try lia.
  fold n in E, Hval. rewrite E. exists ms, (sh - n - j).
  replace (d1 - d2 - 53 + n + j) with (- (sh - n - j)) by (subst sh; lia).
  split; [reflexivity|]. split; [subst sh; lia|]. split; [exact Hms|].
  set (b := sh - n - j).
  assert (Hb : 0 <= b) by (subst b sh; lia).
  assert (Hsplit : 2 ^ sh = 2 ^ b * (2 ^ n * 2 ^ j)).
  { rewrite <- !Z.pow_add_r by lia. f_equal. subst b. lia. }
  assert (Hfloor : q / 2 ^ n * 2 ^ n <= q < (q / 2 ^ n + 1) * 2 ^ n).
  { assert (0 < 2 ^ n) by (apply Z.pow_pos_nonneg; lia).
    pose proof (Z.mul_div_le q (2 ^ n) ltac:(lia)).
    pose proof (Z.mul_succ_div_gt q (2 ^ n) ltac:(lia)). lia. }
  unfold m' in Hqr. rewrite Hsplit in Hqr.
  assert (H2n : 1 <= 2 ^ n <= 2) by (destruct Hn as [-> | ->]; simpl; lia).
  assert (H2j : 1 <= 2 ^ j <= 2) by (destruct Hj as [-> | ->]; simpl; lia).
  assert (H2b : 0 < 2 ^ b) by (apply Z.pow_pos_nonneg; lia).
  set (Qd := q / 2 ^ n) in *. set (B := 2 ^ b) in *.
  set (N := 2 ^ n) in *. set (J := 2 ^ j) in *.
  assert (HtQ1 : Qd * N * Zpos t <= q * Zpos t)
    by (apply Z.mul_le_mono_nonneg_r; lia).
  assert (HtQ2 : (q + 1) * Zpos t <= (Qd + 1) * N * Zpos t)
    by (apply Z.mul_le_mono_nonneg_r; lia).
  assert (HM : Zpos ms * J * N * Zpos t = Qd * N * Zpos t
               \/ Zpos ms * J * N * Zpos t = (Qd + 1) * N * Zpos t)
    by (destruct Hval as [-> | ->]; auto).
  assert (HD : (Zpos ms * Zpos t - Zpos w * B) * (N * J)
               = Zpos ms * J * N * Zpos t - (Zpos t * q + r))
    by (rewrite <- Hqr; ring).
  set (D := Zpos ms * Zpos t - Zpos w * B) in *.
  assert (HDNJ : - (N * Zpos t) < D * (N * J) <= N * Zpos t).
  { rewrite HD. destruct HM as [-> | ->]; lia. }
  apply Z.abs_le.
  assert (0 < N * J) by lia.
  split.
  - destruct (Z.le_gt_cases (- Zpos t) D) as [|Hlt]; [assumption|].
    assert (D * (N * J) <= (- Zpos t - 1) * (N * J))
      by (apply Z.mul_le_mono_nonneg_r; lia).
    assert (N * Zpos t <= Zpos t * (N * J)).
    { replace (Zpos t * (N * J)) with (N * Zpos t * J) by ring.
      rewrite <- (Z.mul_1_r (N * Zpos t)) at 1.
      apply Z.mul_le_mono_nonneg_l; lia. }
    lia.
  - destruct (Z.le_gt_cases D (Zpos t)) as [|Hgt]; [assumption|].
    assert ((Zpos t + 1) * (N * J) <= D * (N * J))
      by (apply Z.mul_le_mono_nonneg_r; lia).
    assert (N * Zpos t <= Zpos t * (N * J)).
    { replace (Zpos t * (N * J)) with (N * Zpos t * J) by ring.
      rewrite <- (Z.mul_1_r (N * Zpos t)) at 1.
      apply Z.mul_le_mono_nonneg_l; lia. }
    lia.
Qed.


Lemma nearest_from_bounds (W T x ms mp r B C : Z) :
  0 < W < 2 ^ 32 -> 2 <= T < 2 ^ 12 -> 0 < x <= T ->
  2 ^ 52 <= ms -> 2 ^ 52 <= mp -> 0 < B -> 0 < C ->
  Z.abs (ms * T - W * B) <= T ->
  Z.abs (mp * B - x * ms * C) <= B ->
  Z.abs (2 * r * C - 2 * mp) <= C ->
  2 * Z.abs (T * r - x * W) <= T.
Proof.
  intros HW HT Hx Hms Hmp HB HC HD HM HR.
  apply Z.abs_le in HD, HM, HR.
  change (2 ^ 32) with 4294967296 in *. change (2 ^ 12) with 4096 in *.
  change (2 ^ 52) with 4503599627370496 in *.
  assert (HxW : x * W < 17592186044416).
  { change 17592186044416 with (4096 * 4294967296).
    apply Z.mul_lt_mono_nonneg; lia. }
  assert (HxT : x * T < 16777216).
  { change 16777216 with (4096 * 4096). apply Z.mul_lt_mono_nonneg; lia. }
  (* the scale factor has many more digits than [4 * x * T] *)
  assert (HBbig : 4 * x * T < B).
  { destruct (Z.lt_ge_cases (4 * x * T) B) as [|Hle]; [assumption|exfalso].
    assert (W * B <= W * (4 * x * T)) by (apply Z.mul_le_mono_nonneg_l; lia).
    assert (4503599627370495 * T <= (ms - 1) * T)
      by (apply Z.mul_le_mono_nonneg_r; lia).
    assert (Hc : 4503599627370495 * T <= (4 * (x * W)) * T) by lia.
    apply Z.mul_le_mono_pos_r in Hc; lia. }
  assert (HmsT : ms * T <= (W + T) * B).
  { assert (T * 1 <= T * B) by (apply Z.mul_le_mono_nonneg_l; lia). lia. }
  assert (HCbig : 4 * T < C).
  { destruct (Z.lt_ge_cases (4 * T) C) as [|Hle]; [assumption|exfalso].
    assert (H1 : (mp - 1) * B <= x * ms * C) by lia.
    assert (H2 : (mp - 1) * B * T <= x * ms * C * T)
      by (apply Z.mul_le_mono_nonneg_r; lia).
    assert (H3 : x * C * (ms * T) <= x * C * ((W + T) * B))
      by (apply Z.mul_le_mono_nonneg_l; [apply Z.mul_nonneg_nonneg; lia | lia]).
    assert (H4 : (mp - 1) * T * B <= x * C * (W + T) * B) by lia.
    apply Z.mul_le_mono_pos_r in H4; [|lia].
    assert (H5 : x * C * (W + T) <= x * (4 * T) * (W + T)).
    { apply Z.mul_le_mono_nonneg_r; [lia|].
      apply Z.mul_le_mono_nonneg_l; lia. }
    assert (H6 : 4503599627370495 * T <= (mp - 1) * T)
      by (apply Z.mul_le_mono_nonneg_r; lia).
    assert (H7 : 4503599627370495 * T <= (4 * (x * (W + T))) * T) by lia.
    apply Z.mul_le_mono_pos_r in H7; [|lia].
    assert (x * (W + T) < 17592186044416 + 16777216) by lia. lia. }
  set (E := T * r - x * W) in *.
  assert (Hsum : 2 * (B * C) * E
                 = T * B * (2 * r * C - 2 * mp) + 2 * T * (mp * B - x * ms * C)
                   + 2 * x * C * (ms * T - W * B)) by (subst E; ring).
  assert (Ha : - (T * B * C) <= T * B * (2 * r * C - 2 * mp) <= T * B * C).
  { assert (0 <= T * B) by (apply Z.mul_nonneg_nonneg; lia).
    split.
    - replace (- (T * B * C)) with (T * B * (- C)) by ring.
      apply Z.mul_le_mono_nonneg_l; lia.
    - apply Z.mul_le_mono_nonneg_l; lia. }
  assert (Hb : - (2 * T * B) <= 2 * T * (mp * B - x * ms * C) <= 2 * T * B).
  { split.
    - replace (- (2 * T * B)) with (2 * T * (- B)) by ring.
      apply Z.mul_le_mono_nonneg_l; lia.
    - apply Z.mul_le_mono_nonneg_l; lia. }
  assert (Hc : - (2 * x * C * T) <= 2 * x * C * (ms * T - W * B) <= 2 * x * C * T).
  { assert (0 <= 2 * x * C) by (apply Z.mul_nonneg_nonneg; lia).
    split.
    - replace (- (2 * x * C * T)) with (2 * x * C * (- T)) by ring.
      apply Z.mul_le_mono_nonneg_l; lia.
    - apply Z.mul_le_mono_nonneg_l; lia. }
  assert (H1 : 4 * T * B < B * C) by (rewrite (Z.mul_comm B C); apply Z.mul_lt_mono_pos_r; lia).
  assert (H2 : 4 * x * T * C < B * C) by (apply Z.mul_lt_mono_pos_r; lia).
  assert (HBC : 0 < B * C) by (apply Z.mul_pos_pos; lia).
  assert (Hfin : - ((T + 1) * (B * C)) < 2 * (B * C) * E < (T + 1) * (B * C)).
  { rewrite Hsum. lia. }
  assert (Hup : 2 * E <= T).
  { destruct (Z.le_gt_cases (2 * E) T) as [|Hgt]; [assumption|exfalso].
    assert ((T + 1) * (B * C) <= 2 * E * (B * C))
      by (apply Z.mul_le_mono_nonneg_r; lia).
    lia. }
  assert (Hdown : - T <= 2 * E).
  { destruct (Z.le_gt_cases (- T) (2 * E)) as [|Hgt]; [assumption|exfalso].
    assert (2 * E * (B * C) <= (- T - 1) * (B * C))
      by (apply Z.mul_le_mono_nonneg_r; lia).
    lia. }
  lia.
Qed.

Lemma round_shift_spec (m c : Z) :
  0 <= m -> 0 < c ->
  Z.abs (2 * Float64.round_shift m c * 2 ^ c - 2 * m) <= 2 ^ c.
Proof.
  intros Hm Hc. unfold Float64.round_shift.
  rewrite Z.shiftr_div_pow2, !Z.shiftl_mul_pow2, Z.mul_1_l by lia.
  assert (Hpow : 2 ^ c = 2 * 2 ^ (c - 1)).
  { rewrite <- Z.pow_succ_r by lia. f_equal. lia. }
  assert (0 < 2 ^ (c - 1)) by (apply Z.pow_pos_nonneg; lia).
  pose proof (Z.div_mod m (2 ^ c) ltac:(lia)) as Hdm.
  pose proof (Z.mod_pos_bound m (2 ^ c) ltac:(lia)) as Hmod.
  set (q := m / 2 ^ c) in *. set (half := 2 ^ (c - 1)) in *.
  set (P := 2 ^ c) in *.
  destruct (m - q * P <? half) eqn:E1;
    [apply Z.ltb_lt in E1; lia | apply Z.ltb_ge in E1].
  destruct (half <? m - q * P) eqn:E2;
    [apply Z.ltb_lt in E2; lia | apply Z.ltb_ge in E2].
  destruct (Z.even q); lia.
Qed.

(** [round(x * (W / T))] is an integer nearest to [x * W / T]. *)
Lemma round_times_nearest (W T x : Z) :
  0 < W < 2 ^ 32 -> 2 <= T < 2 ^ 12 -> 0 <= x <= T ->
  exists (s : spec_float) (r : Z),
    Float64.true_div W T = Return s /\
    Float64.round_times x s = Return r /\
    2 * Z.abs (T * r - x * W) <= T.
Proof.
  intros HW HT Hx.
  destruct (true_div_spec W T) as (ms & b & Ediv & Hb & Hms & HD);
    [change (2 ^ 53) with (2 ^ 32 * 2 ^ 21); lia
    |change (2 ^ 53) with (2 ^ 12 * 2 ^ 41); lia|].
  exists (S754_finite false ms (- b)).
  destruct (Z.eq_dec x 0) as [-> | Hx0].
  { exists 0. split; [exact Ediv|]. split; [reflexivity|].
    rewrite Z.mul_0_r, Z.mul_0_l. simpl. lia. }
  destruct (of_int_exact x) as (mx & a & Eint & Ha & Hmx & Hmxb);
    [change (2 ^ 53) with (2 ^ 12 * 2 ^ 41); lia|].
  unfold Float64.round_times, Float64.int_mul. rewrite Eint.
  unfold SFmul, Float64.prec, Float64.emax. cbn [xorb].
  set (P := Zpos (mx * ms)).
  assert (HP : P = Zpos mx * Zpos ms) by reflexivity.
  assert (HPb : 2 ^ 104 <= P < 2 ^ 106).
  { rewrite HP. change (2 ^ 104) with (2 ^ 52 * 2 ^ 52).
    change (2 ^ 106) with (2 ^ 53 * 2 ^ 53). split.
    - apply Z.mul_le_mono_nonneg; lia.
    - apply Z.mul_lt_mono_nonneg; lia. }
  set (n := Zdigits2 P - 53).
  assert (Hn : n = 52 \/ n = 53).
  { pose proof (Zdigits2_bounds P ltac:(lia)) as [Hq1 Hq2]. subst n.
    destruct (Z.lt_ge_cases (Zdigits2 P) 105) as [H|H].
    - assert (2 ^ Zdigits2 P <= 2 ^ 104) by (apply Z.pow_le_mono_r; lia). lia.
    - destruct (Z.le_gt_cases (Zdigits2 P) 106) as [H'|H']; [lia|].
      assert (2 ^ 106 <= 2 ^ (Zdigits2 P - 1)) by (apply Z.pow_le_mono_r; lia). lia. }
  destruct (binary_round_aux_normal P (- a + - b) loc_Exact)
    as (mp & j & E & Hj & Hmp & Hval & _); fold n; try lia.
  fold n in E, Hval. rewrite E.
  (* the product's exponent is negative *)
  set (A := 2 ^ a). set (B := 2 ^ b). set (N := 2 ^ n). set (J := 2 ^ j).
  assert (HA : 0 < A) by (apply Z.pow_pos_nonneg; lia).
  assert (HB : 0 < B) by (apply Z.pow_pos_nonneg; lia).
  assert (HN : 0 < N) by (apply Z.pow_pos_nonneg; lia).
  assert (HJ : 1 <= J <= 2) by (subst J; destruct Hj as [-> | ->]; simpl; lia).
  assert (Hfloor : P / N * N <= P < (P / N + 1) * N).
  { pose proof (Z.mul_div_le P N ltac:(lia)).
    pose proof (Z.mul_succ_div_gt P N ltac:(lia)). lia. }
  fold N J in Hval. fold A in Hmx. fold B in HD.
  assert (HvalN : Z.abs (Zpos mp * J * N - P) <= N).
  { destruct Hval as [-> | ->]; lia. }
  assert (HNle : N <= 2 ^ 53).
  { subst N. apply Z.pow_le_mono_r; lia. }
  assert (Hc : 0 < a + b - n - j).
  { destruct (Z.lt_ge_cases 0 (a + b - n - j)) as [|Hle]; [assumption|exfalso].
    assert (HAB : A * B <= N * J).
    { subst A B N J. rewrite <- !Z.pow_add_r by lia.
      apply Z.pow_le_mono_r; lia. }
    apply Z.abs_le in HvalN, HD.
    assert (H1 : 2 ^ 52 * (N * J) <= Zpos mp * (N * J))
      by (apply Z.mul_le_mono_nonneg_r; lia).
    assert (H2 : 2 ^ 52 * (A * B) <= 2 ^ 52 * (N * J))
      by (apply Z.mul_le_mono_nonneg_l; lia).
    assert (H3 : 2 ^ 52 * (A * B) <= 2 * P) by lia.
    rewrite HP, Hmx in H3.
    assert (H4 : 2 ^ 52 * B * A <= 2 * x * Zpos ms * A) by lia.
    apply Z.mul_le_mono_pos_r in H4; [|lia].
    assert (H5 : 2 ^ 52 * B * T <= 2 * x * Zpos ms * T)
      by (apply Z.mul_le_mono_nonneg_r; lia).
    assert (H6 : 2 * x * (Zpos ms * T) <= 2 * x * (W * B + T))
      by (apply Z.mul_le_mono_nonneg_l; lia).
    assert (H7 : T * 1 <= T * B) by (apply Z.mul_le_mono_nonneg_l; lia).
    assert (H8 : 2 * x * (W * B + T) <= 2 * x * ((W + T) * B))
      by (apply Z.mul_le_mono_nonneg_l; lia).
    assert (H9 : 2 ^ 52 * T * B <= 2 * x * (W + T) * B) by lia.
    apply Z.mul_le_mono_pos_r in H9; [|lia].
    assert (H10 : 2 * x * (W + T) <= 2 * T * (W + T)).
    { apply Z.mul_le_mono_nonneg_r; lia. }
    assert (H11 : 2 ^ 52 * T <= (2 * (W + T)) * T) by lia.
    apply Z.mul_le_mono_pos_r in H11; [|lia].
    change (2 ^ 52) with (2 ^ 32 * 2 ^ 20) in H11.
    change (2 ^ 12) with 4096 in HT. lia. }
  set (c := a + b - n - j) in *.
  unfold Float64.round.
  replace (- a + - b + n + j) with (- c) by (subst c; lia).
  replace (0 <=? - c) with false by (symmetry; apply Z.leb_gt; lia).
  rewrite Z.opp_involutive.
  exists (Float64.round_shift (Zpos mp) c).
  split; [exact Ediv|]. split; [reflexivity|].
  set (C := 2 ^ c).
  assert (HC : 0 < C) by (apply Z.pow_pos_nonneg; lia).
  assert (HABC : A * B = N * J * C).
  { subst A B N J C. rewrite <- !Z.pow_add_r by lia. f_equal. subst c. lia. }
  apply (nearest_from_bounds W T x (Zpos ms) (Zpos mp) _ B C);
    try lia.
  - (* the product is within one unit in the last place *)
    apply Z.abs_le in HvalN. apply Z.abs_le.
    assert (HNC : N * C <= A * B).
    { rewrite HABC. replace (N * C) with (N * C * 1) at 1 by ring.
      replace (N * J * C) with (N * C * J) by ring.
      apply Z.mul_le_mono_nonneg_l; [apply Z.mul_nonneg_nonneg|]; lia. }
    assert (Hk : (Zpos mp * B - x * Zpos ms * C) * A
                 = (Zpos mp * J * N - P) * C).
    { rewrite HP, Hmx.
      transitivity (Zpos mp * (A * B) - x * Zpos ms * C * A); [ring|].
      rewrite HABC. ring. }
    assert (Hk1 : - (N * C) <= (Zpos mp * J * N - P) * C <= N * C).
    { split.
      - replace (- (N * C)) with (- N * C) by ring.
        apply Z.mul_le_mono_nonneg_r; lia.
      - apply Z.mul_le_mono_nonneg_r; lia. }
    set (Dm := Zpos mp * B - x * Zpos ms * C) in *.
    split.
    + destruct (Z.le_gt_cases (- B) Dm) as [|Hlt]; [assumption|exfalso].
      assert (Dm * A <= (- B - 1) * A) by (apply Z.mul_le_mono_nonneg_r; lia).
      lia.
    + destruct (Z.le_gt_cases Dm B) as [|Hgt]; [assumption|exfalso].
      assert ((B + 1) * A <= Dm * A) by (apply Z.mul_le_mono_nonneg_r; lia).
      lia.
  - apply round_shift_spec; lia.
Qed.


(** ** The computer tool *)
Import PyVal.

Lemma typing_interval :
  Float64.true_div Computer.TYPING_DELAY_MS 1000
  = Return (S754_finite false 6917529027641082 (-59)).
Proof. vm_compute. reflexivity. Qed.

Lemma eqb_to_eq (a b : string) : (a =? b)%string = true -> a = b.
Proof. apply String.eqb_eq. Qed.

(** Case analysis on the tests of [__call__]. *)
Ltac case_action H :=
  repeat match type of H with
         | context [(?a =? ?l)%string] =>
             is_var a;
             let E := fresh "Eact" in
             destruct (a =? l)%string eqn:E;
             [apply eqb_to_eq in E; subst a|];
             simpl in H
         end.

Ltac split_test :=
  match goal with
  | |- context [if ?c then _ else _] => destruct c eqn:?
  | |- context [match ?x with Return _ => _ | Raise _ => _ end] => destruct x eqn:?
  | H : context [if ?c then _ else _] |- _ => destruct c eqn:?
  | H : context [match ?x with Return _ => _ | Raise _ => _ end] |- _ => destruct x eqn:?
  | H : context [match ?x with VStr _ => _ | _ => _ end] |- _ => destruct x eqn:?
  end.

Section ToolFacts.
Variable Image : Type.
Variable position : list Computer.event -> Z * Z.
Variable grab : list Computer.event -> Image.
Variable resize : Image -> Z -> Z -> Image.
Variable png_base64 : Image -> string.

Let call := Computer.call Image position grab resize png_base64.
Let screenshot := Computer.screenshot Image grab resize png_base64.

(** What [screenshot] hands back. *)
Lemma screenshot_result (self : Computer.ComputerTool) (tr : list Computer.event) :
  exists img : string,
    screenshot self tr
    = (Return {| Computer.output := None; Computer.error := None;
                 Computer.base64_image := Some img |}, tr).
Proof. eexists. reflexivity. Qed.

(** C7. A [type] action with a text and no coordinate types the text
    and returns the screenshot taken afterwards: an image, no text
    output and no error, whatever the text. *)
Theorem type_returns_an_image (self : Computer.ComputerTool) (text : string)
    (tr : list Computer.event) :
  exists (interval : spec_float) (img : string),
    call self "type" (VStr text) VNone tr
    = (Return {| Computer.output := None; Computer.error := None;
                 Computer.base64_image := Some img |},
       (tr ++ [Computer.Typewrite text interval])%list) /\
    Float64.true_div 12 1000 = Return interval /\
    img = png_base64
            (let shot := grab (tr ++ [Computer.Typewrite text interval])%list in
             if Computer.scaling_enabled self
             then resize shot Computer.target_width Computer.target_height
             else shot).
Proof.
  exists (S754_finite false 6917529027641082 (-59)). eexists.
  split; [|split; [exact typing_interval | reflexivity]].
  unfold call, Computer.call. simpl.
  unfold Computer.bind, Computer.lift. rewrite typing_interval.
  reflexivity.
Qed.

(** C8. A result returned by [__call__] never has [error] set and has
    at most one of [output] and [base64_image] set: [mouse_move],
    [left_click_drag] and [key] return the empty result,
    [cursor_position] an output only, and [type], the four clicks and
    [screenshot] an image only. *)
Theorem returned_result_shape (self : Computer.ComputerTool) (action : string)
    (text coordinate : pyval) (tr tr' : list Computer.event) (r : Computer.ToolResult)
    (Hret : call self action text coordinate tr = (Return r, tr')) :
  Computer.error r = None /\
  (Computer.output r = None \/ Computer.base64_image r = None) /\
  (action = "mouse_move" \/ action = "left_click_drag" \/ action = "key" ->
     r = Computer.empty_result) /\
  (action = "cursor_position" ->
     exists out : string,
       r = {| Computer.output := Some out; Computer.error := None;
              Computer.base64_image := None |}) /\
  (action = "type" \/ action = "left_click" \/ action = "right_click" \/
   action = "middle_click" \/ action = "double_click" \/ action = "screenshot" ->
     exists img : string,
       r = {| Computer.output := None; Computer.error := None;
              Computer.base64_image := Some img |}).
Proof.
  unfold call, Computer.call in Hret.
  case_action Hret; try discriminate Hret;
    unfold Computer.bind, Computer.lift, Computer.emit, Computer.ret,
      Computer.raise, Computer.get_position, Computer.screenshot in Hret;
    repeat (split_test; simpl in Hret; try discriminate Hret);
    inversion Hret; subst; simpl;
    (split; [reflexivity|]);
    (split; [auto|]);
    repeat split; intros Hact;
    repeat (destruct Hact as [Hact|Hact]); try discriminate Hact;
    try reflexivity; eauto.
Qed.

(** C9, as amended. For [mouse_move] and [left_click_drag] a coordinate
    that is not a list is always refused with a [ToolError] and nothing is
    injected: by the shape test when a coordinate is given and no text is
    (so a tuple of two in-bounds non-negative ints is refused there), and
    by one of the two earlier tests otherwise, [coordinate is required]
    for [None] and [text is not accepted] when a text is given.  A
    dispatch that returns had a list as its coordinate. *)
Theorem coordinate_must_be_a_list (self : Computer.ComputerTool) (action : string)
    (text coordinate : pyval) (tr : list Computer.event)
    (Hact : action = "mouse_move" \/ action = "left_click_drag")
    (Hnot : is_list coordinate = false) :
  (exists msg : string,
     call self action text coordinate tr = (Raise (ToolError msg), tr)) /\
  (is_none coordinate = false -> is_none text = true ->
     call self action text coordinate tr
     = (Raise (ToolError (str coordinate ++ " must be a tuple of length 2")), tr)) /\
  (forall (r : Computer.ToolResult) (tr' : list Computer.event),
     call self action text coordinate tr <> (Return r, tr')) /\
  (is_none coordinate = true ->
     call self action text coordinate tr
     = (Raise (ToolError ("coordinate is required for " ++ action)), tr)) /\
  (is_none coordinate = false -> is_none text = false ->
     call self action text coordinate tr
     = (Raise (ToolError ("text is not accepted for " ++ action)), tr)).
Proof.
  assert (Hcases :
    call self action text coordinate tr
    = if is_none coordinate
      then (Raise (ToolError ("coordinate is required for " ++ action)), tr)
      else if negb (is_none text)
      then (Raise (ToolError ("text is not accepted for " ++ action)), tr)
      else (Raise (ToolError (str coordinate ++ " must be a tuple of length 2")), tr)).
  { unfold call, Computer.call.
    destruct Hact; subst action; simpl;
      destruct (is_none coordinate); try reflexivity;
      destruct (is_none text); simpl; try reflexivity;
      rewrite Hnot; reflexivity. }
  repeat split.
  - rewrite Hcases. destruct (is_none coordinate); [eauto|].
    destruct (negb (is_none text)); eauto.
  - intros Hc Ht. rewrite Hcases, Hc, Ht. reflexivity.
  - intros r tr'. rewrite Hcases. destruct (is_none coordinate); [discriminate|].
    destruct (negb (is_none text)); discriminate.
  - intros Hc. rewrite Hcases, Hc. reflexivity.
  - intros Hc Ht. rewrite Hcases, Hc, Ht. reflexivity.
Qed.

(** A negative component of a list coordinate is refused before
    anything is injected. *)
Lemma negative_component_rejected (self : Computer.ComputerTool) (action : string)
    (x y : Z) (tr : list Computer.event) :
  action = "mouse_move" \/ action = "left_click_drag" ->
  x < 0 \/ y < 0 ->
  call self action VNone (VList [VInt x; VInt y]) tr
  = (Raise (ToolError (str (VList [VInt x; VInt y])
                       ++ " must be a tuple of non-negative ints")), tr).
Proof.
  intros Hact Hneg. unfold call, Computer.call.
  assert (Hnn : Computer.non_negative_ints (VList [VInt x; VInt y]) = false).
  { unfold Computer.non_negative_ints; simpl.
    destruct Hneg as [H|H].
    - replace (0 <=? x) with false by (symmetry; apply Z.leb_gt; lia). reflexivity.
    - replace (0 <=? y) with false by (symmetry; apply Z.leb_gt; lia).
      now rewrite andb_false_r. }
  destruct Hact; subst action; simpl negb; simpl orb; cbv iota;
    rewrite Hnn; reflexivity.
Qed.

(** The bound test compares the coordinate with the size of the display
    ([self.width], [self.height]), whatever the logical resolution is:
    a list of two non-negative ints is refused as out of bounds when a
    component exceeds the display's size, and is scaled and injected
    otherwise. *)
Lemma bound_is_the_display_size (self : Computer.ComputerTool) (action : string)
    (x y : Z) (tr : list Computer.event) :
  action = "mouse_move" \/ action = "left_click_drag" ->
  0 <= x -> 0 <= y ->
  call self action VNone (VList [VInt x; VInt y]) tr
  = if (Computer.width self <? x) || (Computer.height self <? y)
    then (Raise (ToolError ("Coordinates " ++ PyStr.of_int x ++ ", "
                            ++ PyStr.of_int y ++ " are out of bounds")), tr)
    else match Computer.scale_coordinates self x y with
         | Raise e => (Raise e, tr)
         | Return (sx, sy) =>
             (Return Computer.empty_result,
              (tr ++ if (action =? "mouse_move")%string
                     then [Computer.MoveTo sx sy]
                     else [Computer.MouseDown; Computer.MoveTo sx sy;
                           Computer.MouseUp])%list)
         end.
Proof.
  intros Hact Hx Hy. unfold call, Computer.call.
  assert (Hnn : Computer.non_negative_ints (VList [VInt x; VInt y]) = true).
  { unfold Computer.non_negative_ints; simpl.
    apply Z.leb_le in Hx, Hy. now rewrite Hx, Hy. }
  destruct Hact; subst action; simpl negb; simpl orb; cbv iota;
    rewrite Hnn; simpl negb; cbv iota;
    change (item (VList [VInt x; VInt y]) 0) with (VInt x);
    change (item (VList [VInt x; VInt y]) 1) with (VInt y);
    change (int_value (VInt x)) with x; change (int_value (VInt y)) with y;
    change (str (VInt x)) with (PyStr.of_int x);
    change (str (VInt y)) with (PyStr.of_int y);
    destruct ((Computer.width self <? x) || (Computer.height self <? y));
    try reflexivity;
    unfold Computer.bind, Computer.lift, Computer.emit, Computer.ret,
      Computer.get_position;
    destruct (Computer.scale_coordinates self x y) as [[sx sy]|e]; simpl;
    try reflexivity;
    rewrite <- ?app_assoc; reflexivity.
Qed.

(** What [cursor_position] answers: the pointer's position put through
    [scale_coordinates], the scaling from the logical to the physical
    resolution, and printed as [X=<int>,Y=<int>]. *)
Lemma cursor_position_output (self : Computer.ComputerTool) (tr : list Computer.event) :
  call self "cursor_position" VNone VNone tr
  = match Computer.scale_coordinates self (fst (position tr)) (snd (position tr)) with
    | Raise e => (Raise e, tr)
    | Return (sx, sy) =>
        (Return {| Computer.output :=
                     Some ("X=" ++ PyStr.of_int sx ++ ",Y=" ++ PyStr.of_int sy);
                   Computer.error := None; Computer.base64_image := None |}, tr)
    end.
Proof.
  unfold call, Computer.call; simpl.
  unfold Computer.bind, Computer.lift, Computer.get_position, Computer.ret.
  destruct (Computer.scale_coordinates self (fst (position tr)) (snd (position tr)))
    as [[sx sy]|e]; reflexivity.
Qed.

(** C6, as amended. A [key] action whose text holds [Command] or
    [command] (these two spellings; the test is case-sensitive) makes
    one hotkey call with the pieces, in order, of the lowercased text
    with every [_l] deleted, split at [+]; any other text makes a single
    press of the text as it is.  The pieces are never none, hold no
    [+], and joined by [+] give the stripped text back. *)
Theorem key_hotkey_or_press (self : Computer.ComputerTool) (text : string)
    (tr : list Computer.event) :
  let stripped := PyStr.replace "_l" "" (PyStr.lower text) in
  let keys := PyStr.split "+" stripped in
  call self "key" (VStr text) VNone tr
  = (Return Computer.empty_result,
     (tr ++ [if PyStr.contains "Command" text || PyStr.contains "command" text
             then Computer.Hotkey keys else Computer.Press text])%list) /\
  keys <> [] /\
  PyStr.join "+" keys = stripped /\
  Forall (fun key => PyStr.contains "+" key = false) keys /\
  Computer.key_event "Command_L+q" = Computer.Hotkey ["command"; "q"] /\
  Computer.key_event "command+q" = Computer.Hotkey ["command"; "q"] /\
  Computer.key_event "Return" = Computer.Press "Return".
Proof.
  intros stripped keys. repeat split.
  - apply split_not_nil.
  - apply join_split.
  - apply split_pieces_have_no_sep.
Qed.
End ToolFacts.

(** C6, as stated, fails: [COMMAND+q] names the modifier in capitals, and
    is pressed as one literal key. *)
Lemma key_uppercase_command_is_pressed :
  PyStr.contains "command" (PyStr.lower "COMMAND+q") = true /\
  Example.call Example.wuxga "key" (VStr "COMMAND+q") VNone []
  = (Return Computer.empty_result, [Computer.Press "COMMAND+q"]).
Proof. split; reflexivity. Qed.

Lemma returned_result_shape_witness :
  Example.call Example.wuxga "screenshot" VNone VNone []
  = (Return {| Computer.output := None; Computer.error := None;
               Computer.base64_image := Some "iVBORw0KGgo=" |}, []) /\
  Computer.error {| Computer.output := None; Computer.error := None;
                    Computer.base64_image := Some "iVBORw0KGgo=" |} = None.
Proof.
  split; [reflexivity|].
  exact (proj1 (returned_result_shape Example.Image Example.position Example.grab
                  Example.resize Example.png_base64 Example.wuxga "screenshot"
                  VNone VNone [] [] _ eq_refl)).
Defined.

Lemma coordinate_must_be_a_list_witness :
  is_list (VTuple [VInt 640; VInt 400]) = false /\
  Example.call Example.wuxga "mouse_move" VNone (VTuple [VInt 640; VInt 400]) []
  = (Raise (ToolError "(640, 400) must be a tuple of length 2"), []).
Proof.
  split; [reflexivity|].
  exact (proj1 (proj2 (coordinate_must_be_a_list Example.Image Example.position
                         Example.grab Example.resize Example.png_base64
                         Example.wuxga "mouse_move" VNone
                         (VTuple [VInt 640; VInt 400]) []
                         (or_introl eq_refl) eq_refl))
               eq_refl eq_refl).
Defined.

(** C9, as stated, fails when a text is given: the tuple is then refused
    by the text test, which comes before the shape test. *)
Lemma tuple_with_text_fails_before_the_shape_test :
  is_list (VTuple [VInt 640; VInt 400]) = false /\
  Example.call Example.wuxga "mouse_move" (VStr "x") (VTuple [VInt 640; VInt 400]) []
  = (Raise (ToolError "text is not accepted for mouse_move"), []) /\
  Example.call Example.wuxga "mouse_move" (VStr "x") (VTuple [VInt 640; VInt 400]) []
  <> (Raise (ToolError (str (VTuple [VInt 640; VInt 400])
                        ++ " must be a tuple of length 2")), []).
Proof.
  split; [reflexivity|]. split; [reflexivity|].
  vm_compute. intros H. discriminate H.
Qed.

(** C2 on the code: the bound that [mouse_move] and [left_click_drag]
    test is the display's size.  On a 1920x1200 display a coordinate
    beyond the logical 1280x800 is accepted and the pointer is sent off
    the display; on a 1024x768 display a coordinate inside the logical
    bound is refused. *)
Lemma movement_bound_is_physical :
  Computer.init (1920, 1200) = Return Example.wuxga /\
  Example.call Example.wuxga "mouse_move" VNone (VList [VInt 1500; VInt 100]) []
  = (Return Computer.empty_result, [Computer.MoveTo 2250 150]) /\
  Example.call Example.wuxga "left_click_drag" VNone (VList [VInt 100; VInt 1000]) []
  = (Return Computer.empty_result,
     [Computer.MouseDown; Computer.MoveTo 150 1500; Computer.MouseUp]) /\
  Computer.init (1024, 768) = Return Example.xga /\
  Example.call Example.xga "mouse_move" VNone (VList [VInt 1100; VInt 100]) []
  = (Raise (ToolError "Coordinates 1100, 100 are out of bounds"), []).
Proof. repeat split; vm_compute; reflexivity. Qed.

(** C1 on the code: [cursor_position] puts the pointer's physical
    position through the forward scaling.  On a 1920x1200 display with
    the pointer at (960, 600) it answers [X=1440,Y=900]; the inverse
    gives (640, 400). *)
Lemma cursor_position_scales_forward :
  Computer.init (1920, 1200) = Return Example.wuxga /\
  Example.position [] = (960, 600) /\
  Example.call Example.wuxga "cursor_position" VNone VNone []
  = (Return {| Computer.output := Some "X=1440,Y=900"; Computer.error := None;
               Computer.base64_image := None |}, []) /\
  Computer.scale_coordinates Example.wuxga 960 600 = Return (1440, 900) /\
  Spec.to_logical Example.wuxga 960 600 = Return (640, 400).
Proof. repeat split; vm_compute; reflexivity. Qed.

(** ** Scaling *)

(** On a tool built by [__init__] the scale factors are the quotients of
    the display's size by the logical 1280x800, and [scale_coordinates]
    rounds the two products. *)
Lemma scale_coordinates_formula (w h x y : Z) (self : Computer.ComputerTool) :
  Computer.init (w, h) = Return self ->
  Float64.true_div w 1280 = Return (Computer.x_scaling_factor self) /\
  Float64.true_div h 800 = Return (Computer.y_scaling_factor self) /\
  Computer.scaling_enabled self = true /\
  Computer.scale_coordinates self x y
  = match Float64.round_times x (Computer.x_scaling_factor self) with
    | Raise e => Raise e
    | Return sx =>
        match Float64.round_times y (Computer.y_scaling_factor self) with
        | Raise e => Raise e
        | Return sy => Return (sx, sy)
        end
    end.
Proof.
  unfold Computer.init.
  change Computer.target_width with 1280. change Computer.target_height with 800.
  destruct (Float64.true_div w 1280) as [fx|e]; [|discriminate].
  destruct (Float64.true_div h 800) as [fy|e]; [|discriminate].
  intros Hinit. inversion Hinit; subst self; clear Hinit.
  repeat split.
Qed.

(** With scaling off, [scale_coordinates] changes nothing. *)
Lemma scale_coordinates_disabled (self : Computer.ComputerTool) (x y : Z) :
  Computer.scaling_enabled self = false ->
  Computer.scale_coordinates self x y = Return (x, y).
Proof. intros H. unfold Computer.scale_coordinates. now rewrite H. Qed.

(** C5. On a display of [w] x [h] pixels (each below 2^32), [__init__]
    sets [scale_x = w / 1280] and [scale_y = h / 800] with scaling on, and
    for every in-bounds logical coordinate [(x, y)] [scale_coordinates]
    returns [(round(x * scale_x), round(y * scale_y))], each component an
    integer nearest to the exact [x * w / 1280], [y * h / 800].  For
    1920x1200 both factors are 1.5 and (640, 400) goes to (960, 600). *)
Theorem scale_coordinates_rounds (w h x y : Z)
    (Hw : 0 < w < 2 ^ 32) (Hh : 0 < h < 2 ^ 32)
    (Hx : 0 <= x <= Computer.target_width) (Hy : 0 <= y <= Computer.target_height) :
  exists (self : Computer.ComputerTool) (sx sy : Z),
    Computer.init (w, h) = Return self /\
    Computer.scaling_enabled self = true /\
    Float64.true_div w Computer.target_width = Return (Computer.x_scaling_factor self) /\
    Float64.true_div h Computer.target_height = Return (Computer.y_scaling_factor self) /\
    Computer.scale_coordinates self x y = Return (sx, sy) /\
    Float64.round_times x (Computer.x_scaling_factor self) = Return sx /\
    Float64.round_times y (Computer.y_scaling_factor self) = Return sy /\
    Spec.nearest sx (x * w) Computer.target_width /\
    Spec.nearest sy (y * h) Computer.target_height /\
    Float64.true_div 1920 1280 = Return (S754_finite false (3 * 2 ^ 51) (- 52)) /\
    Float64.true_div 1200 800 = Return (S754_finite false (3 * 2 ^ 51) (- 52)) /\
    Computer.scale_coordinates Example.wuxga 640 400 = Return (960, 600).
Proof.
  unfold Computer.target_width, Computer.target_height in *.
  destruct (round_times_nearest w 1280 x Hw) as (fx & sx & Efx & Esx & Hsx);
    [change (2 ^ 12) with 4096; lia | lia |].
  destruct (round_times_nearest h 800 y Hh) as (fy & sy & Efy & Esy & Hsy);
    [change (2 ^ 12) with 4096; lia | lia |].
  exists {| Computer.width := w; Computer.height := h;
            Computer.display_num := Some 1;
            Computer.x_scaling_factor := fx; Computer.y_scaling_factor := fy;
            Computer.scaling_enabled := true |}, sx, sy.
  unfold Computer.init, Computer.scale_coordinates, Spec.nearest.
  change Computer.target_width with 1280. change Computer.target_height with 800.
  rewrite Efx, Efy. cbn [Computer.scaling_enabled Computer.x_scaling_factor
                         Computer.y_scaling_factor negb].
  rewrite Esx, Esy.
  repeat split; try assumption; vm_compute; reflexivity.
Qed.

Lemma scale_coordinates_rounds_witness :
  exists (self : Computer.ComputerTool) (sx sy : Z),
    Computer.init (1366, 768) = Return self /\
    Computer.scale_coordinates self 320 400 = Return (sx, sy) /\
    Spec.nearest sx (320 * 1366) 1280 /\
    Spec.nearest sy (400 * 768) 800.
Proof.
  destruct (scale_coordinates_rounds 1366 768 320 400)
    as (self & sx & sy & Hinit & _ & _ & _ & Hscale & _ & _ & Hsx & Hsy & _);
    try (unfold Computer.target_width, Computer.target_height; lia).
  exists self, sx, sy. repeat split; assumption.
Defined.

(** * Further properties of the code *)

(** ** [chunks] *)

Lemma take_drop (k : nat) (s : string) : PyStr.take k s ++ PyStr.drop k s = s.
Proof.
  revert s; induction k as [|k IH]; intros [|c s]; simpl; try reflexivity.
  now rewrite IH.
Qed.

Lemma drop_length (k : nat) (s : string) :
  String.length (PyStr.drop k s) = (String.length s - k)%nat.
Proof.
  revert s; induction k as [|k IH]; intros [|c s]; simpl; try reflexivity.
  apply IH.
Qed.

Lemma take_plus (a b : nat) (s : string) :
  PyStr.take (a + b) s = PyStr.take a s ++ PyStr.take b (PyStr.drop a s).
Proof.
  revert s; induction a as [|a IH]; intros s; simpl.
  - now destruct s.
  - destruct s as [|c s]; simpl; [now destruct b | now rewrite IH].
Qed.

Lemma concat_append (l1 l2 : list string) :
  PyStr.concat (l1 ++ l2) = PyStr.concat l1 ++ PyStr.concat l2.
Proof.
  induction l1 as [|p l1 IH]; simpl; [reflexivity|].
  rewrite IH. clear IH. induction p as [|c p IHp]; simpl; [reflexivity | now rewrite IHp].
Qed.

Lemma append_empty_r (s : string) : s ++ "" = s.
Proof. induction s as [|c s IH]; simpl; [reflexivity | now rewrite IH]. Qed.

(** The pieces of [n] characters starting at the multiples of [n]. *)
Lemma concat_pieces (n m : nat) (s : string) :
  PyStr.concat (map (fun k => PyStr.take n (PyStr.drop (k * n) s)) (seq 0 m))
  = PyStr.take (m * n) s.
Proof.
  induction m as [|m IH].
  - simpl. now destruct s.
  - rewrite seq_S, map_app, concat_append, IH. simpl.
    rewrite append_empty_r, (Nat.add_comm n (m * n)). symmetry. apply take_plus.
Qed.

(** A slice inside the string, in terms of [take] and [drop]. *)
Lemma slice_take_drop (s : string) (i n : Z) :
  0 <= i <= PyStr.len s -> 0 <= n ->
  PyStr.slice s i (i + n) = PyStr.take (Z.to_nat n) (PyStr.drop (Z.to_nat i) s).
Proof.
  intros Hi Hn. unfold PyStr.slice, PyStr.clamp.
  replace (i <? 0) with false by (symmetry; apply Z.ltb_ge; lia).
  replace (i + n <? 0) with false by (symmetry; apply Z.ltb_ge; lia).
  rewrite (Z.min_l i) by lia.
  destruct (Z.le_gt_cases (i + n) (PyStr.len s)) as [H|H].
  - rewrite Z.min_l by lia. f_equal. lia.
  - rewrite Z.min_r by lia.
    rewrite (take_all (Z.to_nat n)), take_all; try reflexivity;
      rewrite drop_length; unfold PyStr.len in *; lia.
Qed.

Lemma range_from_zero (stop step : Z) :
  0 < step ->
  PyRange.range 0 stop step
  = Return (map (fun k => Z.of_nat k * step)
                (seq 0 (Z.to_nat ((stop + step - 1) / step)))).
Proof.
  intros Hs. unfold PyRange.range.
  replace (step =? 0) with false by (symmetry; apply Z.eqb_neq; lia).
  replace (0 <? step) with true by (symmetry; apply Z.ltb_lt; lia).
  rewrite Z.sub_0_r. reflexivity.
Qed.

Lemma ceil_div_bounds (len size : Z) :
  0 <= len -> 0 < size ->
  let c := (len + size - 1) / size in
  0 <= c /\ (c - 1) * size < len \/ len = 0 /\ c = 0.
Proof.
  intros Hl Hs c.
  destruct (Z.eq_dec len 0) as [->|Hne].
  - right. split; [reflexivity|]. subst c. apply Z.div_small. lia.
  - left. subst c.
    pose proof (Z.div_mod (len + size - 1) size ltac:(lia)).
    pose proof (Z.mod_pos_bound (len + size - 1) size ltac:(lia)).
    assert (0 <= (len + size - 1) / size) by (apply Z.div_pos; lia).
    split; [assumption|]. nia.
Qed.

Lemma ceil_div_covers (len size : Z) :
  0 <= len -> 0 < size -> len <= (len + size - 1) / size * size.
Proof.
  intros Hl Hs.
  pose proof (Z.div_mod (len + size - 1) size ltac:(lia)).
  pose proof (Z.mod_pos_bound (len + size - 1) size ltac:(lia)).
  nia.
Qed.

(** X1. For a positive chunk size, [chunks] cuts the string into
    consecutive pieces: glued together they give the string back, there
    are [ceil(len / size)] of them, none is empty or longer than the size,
    and all but the last have exactly the size. *)
Theorem chunks_partition (s : string) (size : Z) (Hsize : 0 < size) :
  exists cs : list string,
    Computer.chunks s size = Return cs /\
    PyStr.concat cs = s /\
    Z.of_nat (List.length cs) = (PyStr.len s + size - 1) / size /\
    forall (k : nat) (c : string),
      nth_error cs k = Some c ->
      0 < PyStr.len c <= size /\
      (S k < List.length cs -> PyStr.len c = size)%nat.
Proof.
  set (n := Z.to_nat size).
  set (m := Z.to_nat ((PyStr.len s + size - 1) / size)).
  assert (Hlen : 0 <= PyStr.len s) by (unfold PyStr.len; lia).
  pose proof (ceil_div_covers (PyStr.len s) size Hlen Hsize) as Hcov.
  assert (Hm : Z.of_nat m = (PyStr.len s + size - 1) / size).
  { subst m. rewrite Z2Nat.id; [reflexivity|]. apply Z.div_pos; lia. }
  assert (Hpieces : Computer.chunks s size
            = Return (map (fun k => PyStr.take n (PyStr.drop (k * n) s)) (seq 0 m))).
  { unfold Computer.chunks. rewrite range_from_zero by assumption. fold m.
    f_equal. rewrite map_map. apply map_ext_in. intros k Hk.
    apply in_seq in Hk.
    destruct (ceil_div_bounds (PyStr.len s) size Hlen Hsize) as [[_ Hc]|[_ Hc]];
      [|rewrite <- Hm in Hc; lia].
    rewrite <- Hm in Hc.
    rewrite slice_take_drop by nia.
    subst n. f_equal. f_equal. rewrite Z2Nat.inj_mul, Nat2Z.id by lia. reflexivity. }
  eexists. split; [exact Hpieces|].
  split; [|split].
  - rewrite concat_pieces. apply take_all. unfold PyStr.len in *. subst n. nia.
  - rewrite length_map, length_seq. exact Hm.
  - intros k c Hk. rewrite length_map, length_seq.
    assert (Hkm : (k < m)%nat).
    { assert (Hsome : nth_error
                        (map (fun k0 => PyStr.take n (PyStr.drop (k0 * n) s)) (seq 0 m)) k
                      <> None) by congruence.
      apply nth_error_Some in Hsome.
      now rewrite length_map, length_seq in Hsome. }
    rewrite nth_error_map, nth_error_seq in Hk.
    replace (k <? m)%nat with true in Hk by (symmetry; apply Nat.ltb_lt; lia).
    simpl in Hk. inversion Hk; subst c; clear Hk.
    unfold PyStr.len. rewrite take_length, drop_length.
    destruct (ceil_div_bounds (PyStr.len s) size Hlen Hsize) as [[_ Hc]|[_ Hc]];
      [|rewrite <- Hm in Hc; lia].
    rewrite <- Hm in Hc. unfold PyStr.len in Hc. subst n.
    split; [nia|]. intros Hlast. nia.
Qed.

(** ** More on the bounded runner *)

Lemma maybe_truncate_under (s : string) (n : Z) :
  PyStr.len s <= n -> Run.maybe_truncate s (Some n) = s.
Proof.
  intros H. unfold Run.maybe_truncate; simpl.
  apply Z.leb_le in H. rewrite H, orb_true_r. reflexivity.
Qed.

Lemma maybe_truncate_over (s : string) (n : Z) :
  0 < n < PyStr.len s ->
  Run.maybe_truncate s (Some n) = PyStr.take (Z.to_nat n) s ++ Run.TRUNCATED_MESSAGE.
Proof.
  intros H. unfold Run.maybe_truncate; simpl.
  replace (n =? 0) with false by (symmetry; apply Z.eqb_neq; lia).
  replace (PyStr.len s <=? n) with false by (symmetry; apply Z.leb_gt; lia).
  simpl. rewrite slice_to_take by lia. reflexivity.
Qed.

(** X2. With a limit that is [None] or not negative, truncating a second
    time changes nothing, also when the first time did cut. *)
Theorem maybe_truncate_idempotent (s : string) (limit : option Z)
    (Hlimit : forall n, limit = Some n -> 0 <= n) :
  Run.maybe_truncate (Run.maybe_truncate s limit) limit = Run.maybe_truncate s limit.
Proof.
  destruct limit as [n|]; [|reflexivity].
  specialize (Hlimit n eq_refl).
  destruct (Z.eq_dec n 0) as [->|Hn0]; [reflexivity|].
  destruct (Z.le_gt_cases (PyStr.len s) n) as [Hle|Hgt].
  - rewrite (maybe_truncate_under s n Hle). apply maybe_truncate_under, Hle.
  - rewrite (maybe_truncate_over s n) by lia.
    assert (Hlen : String.length (PyStr.take (Z.to_nat n) s) = Z.to_nat n).
    { rewrite take_length. unfold PyStr.len in Hgt. lia. }
    rewrite maybe_truncate_over.
    + rewrite take_take_append; [reflexivity|]. unfold PyStr.len in Hgt. lia.
    + unfold PyStr.len. rewrite length_append, Hlen.
      change (String.length Run.TRUNCATED_MESSAGE) with 70%nat. lia.
Qed.

(** X3. A negative limit always cuts: the result is the content without
    its last [-n] characters (nothing when it has fewer), followed by the
    notice marker, however short the content is. *)
Theorem maybe_truncate_negative_limit (s : string) (n : Z) (Hn : n < 0) :
  Run.maybe_truncate s (Some n)
  = PyStr.take (Z.to_nat (PyStr.len s + n)) s ++ Run.TRUNCATED_MESSAGE /\
  PyStr.len (Run.maybe_truncate s (Some n))
  = Z.max 0 (PyStr.len s + n) + PyStr.len Run.TRUNCATED_MESSAGE.
Proof.
  assert (E : Run.maybe_truncate s (Some n)
              = PyStr.take (Z.to_nat (PyStr.len s + n)) s ++ Run.TRUNCATED_MESSAGE).
  { unfold Run.maybe_truncate; simpl.
    replace (n =? 0) with false by (symmetry; apply Z.eqb_neq; lia).
    replace (PyStr.len s <=? n) with false
      by (symmetry; apply Z.leb_gt; unfold PyStr.len; lia).
    simpl. unfold PyStr.slice_to.
    replace (n <? 0) with true by (symmetry; apply Z.ltb_lt; lia).
    f_equal. f_equal. lia. }
  split; [exact E|].
  rewrite E. unfold PyStr.len. rewrite length_append, take_length. lia.
Qed.

Lemma maybe_truncate_length (s : string) (n : Z) :
  0 < n -> PyStr.len (Run.maybe_truncate s (Some n)) <= n + PyStr.len Run.TRUNCATED_MESSAGE.
Proof.
  intros Hn. destruct (Z.le_gt_cases (PyStr.len s) n) as [Hle|Hgt].
  - rewrite maybe_truncate_under by assumption. unfold PyStr.len in *. lia.
  - rewrite maybe_truncate_over by lia.
    unfold PyStr.len in *. rewrite length_append, take_length. lia.
Qed.

Section RunnerFacts.
Variable float_repr : spec_float -> string.
Variable spawn : string -> Run.process.

Let run_shell := Run.run_shell float_repr spawn.




(** X6. When [run_shell] returns under a positive limit [n], the exit
    code is the process's (0 when it has none), each stream is its own
    output truncated, unchanged when within the limit, and neither is
    longer than [n] plus the marker. *)
Theorem run_shell_output_is_bounded (cmd : string) (timeout : option Run.seconds)
    (n code : Z) (out err : string) (fx : list Run.effect)
    (Hn : 0 < n)
    (Hret : run_shell cmd timeout (Some n) = (Return (code, out, err), fx)) :
  let done := Run.value (Run.communicate (spawn cmd)) in
  code = Run.returncode_or_0 (Run.returncode done) /\
  out = Run.maybe_truncate (Run.stdout done) (Some n) /\
  err = Run.maybe_truncate (Run.stderr done) (Some n) /\
  PyStr.len out <= n + PyStr.len Run.TRUNCATED_MESSAGE /\
  PyStr.len err <= n + PyStr.len Run.TRUNCATED_MESSAGE /\
  (PyStr.len (Run.stdout done) <= n -> out = Run.stdout done) /\
  (PyStr.len (Run.stderr done) <= n -> err = Run.stderr done) /\
  fx = [Run.Spawn cmd].
Proof.
  unfold run_shell, Run.run_shell in Hret.
  assert (Hwait : Run.wait_for (Run.communicate (spawn cmd)) timeout
                  = Run.Finished (Run.value (Run.communicate (spawn cmd)))).
  { unfold Run.wait_for in *. destruct timeout as [t|]; [|reflexivity].
    destruct (Run.done_by (Run.communicate (spawn cmd)) t);
      [reflexivity | discriminate Hret]. }
  rewrite Hwait in Hret. cbv zeta. unfold Run.stdout, Run.stderr.
  destruct (Run.stdout_decoded (Run.value (Run.communicate (spawn cmd)))) as [so|];
    [|discriminate Hret].
  destruct (Run.stderr_decoded (Run.value (Run.communicate (spawn cmd)))) as [se|];
    [|discriminate Hret].
  inversion Hret; subst; clear Hret. simpl Run.text_of.
  repeat split; try apply maybe_truncate_length; try assumption;
    intros H; apply maybe_truncate_under; exact H.
Qed.
End RunnerFacts.

(** ** More on scaling *)

Lemma nearest_within (r x w T : Z) :
  0 < T -> 0 < w -> 0 <= x <= T -> Spec.nearest r (x * w) T -> 0 <= r <= w.
Proof.
  unfold Spec.nearest. intros HT Hw Hx Hn.
  assert (Hxw : 0 <= x * w <= T * w).
  { split; [apply Z.mul_nonneg_nonneg; lia | apply Z.mul_le_mono_nonneg_r; lia]. }
  split.
  - destruct (Z.le_gt_cases 0 r) as [|Hneg]; [assumption|exfalso].
    assert (T * r <= T * (-1)) by (apply Z.mul_le_mono_nonneg_l; lia). lia.
  - destruct (Z.le_gt_cases r w) as [|Hbig]; [assumption|exfalso].
    assert (T * (w + 1) <= T * r) by (apply Z.mul_le_mono_nonneg_l; lia). lia.
Qed.

Lemma nearest_exact (r k T : Z) : 0 < T -> Spec.nearest r (T * k) T -> r = k.
Proof.
  unfold Spec.nearest. intros HT Hn.
  rewrite <- Z.mul_sub_distr_l in Hn.
  destruct (Z.lt_trichotomy r k) as [H|[H|H]]; [exfalso|assumption|exfalso].
  - assert (T * (r - k) <= T * (-1)) by (apply Z.mul_le_mono_nonneg_l; lia). lia.
  - assert (T * 1 <= T * (r - k)) by (apply Z.mul_le_mono_nonneg_l; lia). lia.
Qed.

Lemma nearest_monotone (r1 r2 n1 n2 T : Z) :
  0 < T -> n1 < n2 -> Spec.nearest r1 n1 T -> Spec.nearest r2 n2 T -> r1 <= r2.
Proof.
  unfold Spec.nearest. intros HT Hlt H1 H2.
  destruct (Z.le_gt_cases r1 r2) as [|Hgt]; [assumption|exfalso].
  assert (T * (r2 + 1) <= T * r1) by (apply Z.mul_le_mono_nonneg_l; lia). lia.
Qed.

Lemma nearest_strict (r1 r2 x1 x2 w T : Z) :
  0 < T -> T <= w -> x1 < x2 ->
  Spec.nearest r1 (x1 * w) T -> Spec.nearest r2 (x2 * w) T -> r1 < r2.
Proof.
  unfold Spec.nearest. intros HT Hw Hlt H1 H2.
  assert (Hstep : x1 * w + w <= x2 * w).
  { replace (x1 * w + w) with ((x1 + 1) * w) by ring.
    apply Z.mul_le_mono_nonneg_r; lia. }
  destruct (Z.lt_ge_cases r1 r2) as [|Hge]; [assumption|exfalso].
  assert (HTr : T * r2 <= T * r1) by (apply Z.mul_le_mono_nonneg_l; lia).
  assert (HwT : w = T) by lia. subst w.
  assert (Hx : x2 * T = x1 * T + T) by lia.
  assert (Heq : 2 * (T * r1) = 2 * (x1 * T) + T) by lia.
  assert (Hpar : T * (2 * r1 - 2 * x1 - 1) = 0) by (ring_simplify; lia).
  apply Z.mul_eq_0 in Hpar. lia.
Qed.

(** What [scale_coordinates] returns on a tool built by [__init__]. *)
Lemma scale_coordinates_nearest (w h x y : Z) (self : Computer.ComputerTool) :
  0 < w < 2 ^ 32 -> 0 < h < 2 ^ 32 -> 0 <= x <= 1280 -> 0 <= y <= 800 ->
  Computer.init (w, h) = Return self ->
  exists sx sy : Z,
    Computer.scale_coordinates self x y = Return (sx, sy) /\
    Spec.nearest sx (x * w) 1280 /\ Spec.nearest sy (y * h) 800.
Proof.
  intros Hw Hh Hx Hy Hinit.
  destruct (scale_coordinates_formula w h x y self Hinit) as (Efx & Efy & _ & Escale).
  destruct (round_times_nearest w 1280 x Hw) as (fx & sx & Efx' & Esx & Hsx);
    [change (2 ^ 12) with 4096; lia | lia |].
  destruct (round_times_nearest h 800 y Hh) as (fy & sy & Efy' & Esy & Hsy);
    [change (2 ^ 12) with 4096; lia | lia |].
  rewrite Efx in Efx'. rewrite Efy in Efy'.
  inversion Efx'; inversion Efy'; subst fx fy.
  exists sx, sy. rewrite Escale, Esx, Esy. auto.
Qed.

Lemma init_size (w h : Z) (self : Computer.ComputerTool) :
  Computer.init (w, h) = Return self ->
  Computer.width self = w /\ Computer.height self = h /\
  Computer.display_num self = Some 1.
Proof.
  unfold Computer.init.
  destruct (Float64.true_div w Computer.target_width); [|discriminate].
  destruct (Float64.true_div h Computer.target_height); [|discriminate].
  intros H; inversion H; subst; auto.
Qed.

(** X8. On a display below 2^32 pixels a side, an in-bounds logical
    coordinate is scaled to a point of the display, and the corners of
    the logical screen go to the corners of the display. *)
Theorem scale_coordinates_stays_on_display (w h x y : Z) (self : Computer.ComputerTool)
    (Hw : 0 < w < 2 ^ 32) (Hh : 0 < h < 2 ^ 32)
    (Hx : 0 <= x <= Computer.target_width) (Hy : 0 <= y <= Computer.target_height)
    (Hinit : Computer.init (w, h) = Return self) :
  (exists sx sy : Z,
     Computer.scale_coordinates self x y = Return (sx, sy) /\
     0 <= sx <= w /\ 0 <= sy <= h) /\
  Computer.scale_coordinates self 0 0 = Return (0, 0) /\
  Computer.scale_coordinates self Computer.target_width Computer.target_height
  = Return (w, h).
Proof.
  unfold Computer.target_width, Computer.target_height in *.
  split; [|split].
  - destruct (scale_coordinates_nearest w h x y self) as (sx & sy & E & Hsx & Hsy);
      try assumption.
    exists sx, sy. split; [exact E|].
    split; [apply (nearest_within sx x w 1280) | apply (nearest_within sy y h 800)];
      try assumption; lia.
  - destruct (scale_coordinates_nearest w h 0 0 self) as (sx & sy & E & Hsx & Hsy);
      try assumption; try lia.
    rewrite E. f_equal. f_equal.
    + apply (nearest_exact sx 0 1280); [lia|]. now rewrite Z.mul_0_r.
    + apply (nearest_exact sy 0 800); [lia|]. now rewrite Z.mul_0_r.
  - destruct (scale_coordinates_nearest w h 1280 800 self) as (sx & sy & E & Hsx & Hsy);
      try assumption; try lia.
    rewrite E. f_equal. f_equal.
    + apply (nearest_exact sx w 1280); [lia | exact Hsx].
    + apply (nearest_exact sy h 800); [lia | exact Hsy].
Qed.

(** X9. Scaling keeps the order of coordinates on each axis, and on a
    display at least as large as the logical screen it never sends two
    different logical coordinates to the same pixel. *)
Theorem scale_coordinates_monotone (w h x1 y1 x2 y2 sx1 sy1 sx2 sy2 : Z)
    (self : Computer.ComputerTool)
    (Hw : 0 < w < 2 ^ 32) (Hh : 0 < h < 2 ^ 32)
    (Hinit : Computer.init (w, h) = Return self)
    (Hx : 0 <= x1 <= x2 /\ x2 <= Computer.target_width)
    (Hy : 0 <= y1 <= y2 /\ y2 <= Computer.target_height)
    (H1 : Computer.scale_coordinates self x1 y1 = Return (sx1, sy1))
    (H2 : Computer.scale_coordinates self x2 y2 = Return (sx2, sy2)) :
  sx1 <= sx2 /\ sy1 <= sy2 /\
  (Computer.target_width <= w -> x1 < x2 -> sx1 < sx2) /\
  (Computer.target_height <= h -> y1 < y2 -> sy1 < sy2).
Proof.
  unfold Computer.target_width, Computer.target_height in *.
  destruct (scale_coordinates_nearest w h x1 y1 self) as (a1 & b1 & E1 & Ha1 & Hb1);
    try assumption; try lia.
  destruct (scale_coordinates_nearest w h x2 y2 self) as (a2 & b2 & E2 & Ha2 & Hb2);
    try assumption; try lia.
  rewrite H1 in E1. rewrite H2 in E2.
  inversion E1; inversion E2; subst a1 b1 a2 b2; clear E1 E2.
  assert (Hmx : x1 < x2 -> x1 * w < x2 * w)
    by (intros; apply Z.mul_lt_mono_pos_r; lia).
  assert (Hmy : y1 < y2 -> y1 * h < y2 * h)
    by (intros; apply Z.mul_lt_mono_pos_r; lia).
  (* equal inputs on one axis give equal outputs on it *)
  destruct (scale_coordinates_formula w h x1 y1 self Hinit) as (_ & _ & _ & F1).
  destruct (scale_coordinates_formula w h x2 y2 self Hinit) as (_ & _ & _ & F2).
  rewrite H1 in F1. rewrite H2 in F2.
  split; [|split; [|split]].
  - destruct (Z.eq_dec x1 x2) as [->|Hne].
    + destruct (Float64.round_times x2 (Computer.x_scaling_factor self)); [|discriminate].
      destruct (Float64.round_times y1 (Computer.y_scaling_factor self)); [|discriminate].
      destruct (Float64.round_times y2 (Computer.y_scaling_factor self)); [|discriminate].
      inversion F1; inversion F2; lia.
    + apply (nearest_monotone sx1 sx2 (x1 * w) (x2 * w) 1280);
        try assumption; try lia.
  - destruct (Z.eq_dec y1 y2) as [->|Hne].
    + destruct (Float64.round_times x1 (Computer.x_scaling_factor self)); [|discriminate].
      destruct (Float64.round_times x2 (Computer.x_scaling_factor self)); [|discriminate].
      destruct (Float64.round_times y2 (Computer.y_scaling_factor self)); [|discriminate].
      inversion F1; inversion F2; lia.
    + apply (nearest_monotone sy1 sy2 (y1 * h) (y2 * h) 800);
        try assumption; try lia.
  - intros Hbig Hlt. apply (nearest_strict sx1 sx2 x1 x2 w 1280); try assumption; lia.
  - intros Hbig Hlt. apply (nearest_strict sy1 sy2 y1 y2 h 800); try assumption; lia.
Qed.

(** X10. When the display's size is a whole multiple of the logical
    1280x800, scaling multiplies each coordinate by that multiple
    exactly. *)
Theorem scale_coordinates_whole_factor (kx ky x y : Z) (self : Computer.ComputerTool)
    (Hkx : 0 < kx < 2 ^ 21) (Hky : 0 < ky < 2 ^ 22)
    (Hx : 0 <= x <= Computer.target_width) (Hy : 0 <= y <= Computer.target_height)
    (Hinit : Computer.init (Computer.target_width * kx, Computer.target_height * ky)
             = Return self) :
  Computer.scale_coordinates self x y = Return (kx * x, ky * y).
Proof.
  unfold Computer.target_width, Computer.target_height in *.
  destruct (scale_coordinates_nearest (1280 * kx) (800 * ky) x y self)
    as (sx & sy & E & Hsx & Hsy); try assumption.
  - change (2 ^ 32) with (1280 * 3355443 + 256). change (2 ^ 21) with 2097152 in Hkx. lia.
  - change (2 ^ 32) with (800 * 5368709 + 96). change (2 ^ 22) with 4194304 in Hky. lia.
  - rewrite E. f_equal. f_equal.
    + apply (nearest_exact sx (kx * x) 1280); [lia|].
      replace (1280 * (kx * x)) with (x * (1280 * kx)) by ring. exact Hsx.
    + apply (nearest_exact sy (ky * y) 800); [lia|].
      replace (800 * (ky * y)) with (y * (800 * ky)) by ring. exact Hsy.
Qed.

(** ** The keys of a hotkey *)

Lemma lower_char_idempotent (c : ascii) :
  PyStr.lower_char (PyStr.lower_char c) = PyStr.lower_char c.
Proof. destruct c as [[] [] [] [] [] [] [] []]; reflexivity. Qed.

Lemma lower_idempotent (s : string) : PyStr.lower (PyStr.lower s) = PyStr.lower s.
Proof.
  induction s as [|c s IH]; simpl; [reflexivity|].
  now rewrite lower_char_idempotent, IH.
Qed.

Lemma lower_cons_fixed (c : ascii) (t : string) :
  PyStr.lower (String c t) = String c t ->
  PyStr.lower_char c = c /\ PyStr.lower t = t.
Proof. simpl. intros H. inversion H as [[Hc Ht]]. now rewrite Hc, Ht. Qed.

Lemma replace_from_cons (old new : string) (skip : nat) (c : ascii) (t : string) :
  PyStr.replace_from old new skip (String c t)
  = match skip with
    | S k => PyStr.replace_from old new k t
    | O => if String.prefix old (String c t)
           then new ++ PyStr.replace_from old new (String.length old - 1) t
           else String c (PyStr.replace_from old new O t)
    end.
Proof. reflexivity. Qed.

Lemma replace_from_keeps_lower (old : string) (skip : nat) (s : string) :
  PyStr.lower s = s ->
  PyStr.lower (PyStr.replace_from old "" skip s) = PyStr.replace_from old "" skip s.
Proof.
  revert skip; induction s as [|c t IH]; intros skip Hs; [reflexivity|].
  apply lower_cons_fixed in Hs. destruct Hs as [Hc Ht].
  rewrite replace_from_cons. destruct skip as [|k]; [|apply IH, Ht].
  destruct (String.prefix old (String c t)).
  - simpl. apply IH, Ht.
  - simpl. now rewrite Hc, IH.
Qed.

Lemma split_keeps_lower (sep : ascii) (s : string) :
  PyStr.lower s = s ->
  Forall (fun piece => PyStr.lower piece = piece) (PyStr.split sep s).
Proof.
  induction s as [|c t IH]; intros Hs; simpl.
  - repeat constructor.
  - apply lower_cons_fixed in Hs. destruct Hs as [Hc Ht]. specialize (IH Ht).
    destruct (Ascii.eqb c sep).
    + constructor; [reflexivity | exact IH].
    + destruct (PyStr.split sep t) as [|h r].
      * repeat constructor. simpl. now rewrite Hc.
      * inversion IH as [|? ? Hh Hr]; subst.
        constructor; [|exact Hr]. simpl. now rewrite Hc, Hh.
Qed.

(** A needle made of characters other than [_] and [l] survives the
    deletion of every [_l]. *)

Lemma prefix_empty (s : string) : String.prefix "" s = true.
Proof. now destruct s. Qed.

Lemma strip_eq (s : string) : PyStr.replace "_l" "" s = PyStr.replace_from "_l" "" 0 s.
Proof. reflexivity. Qed.

Lemma prefix_cons_eq (a c : ascii) (n t : string) :
  String.prefix (String a n) (String c t)
  = if ascii_dec a c then String.prefix n t else false.
Proof. reflexivity. Qed.

Lemma strip_cons_other (c : ascii) (t : string) :
  c <> "_"%char -> PyStr.replace "_l" "" (String c t) = String c (PyStr.replace "_l" "" t).
Proof.
  intros Hc. rewrite !strip_eq, replace_from_cons, prefix_cons_eq.
  destruct (ascii_dec "_" c) as [E|_]; [now elim Hc | reflexivity].
Qed.

Lemma strip_underscore_l (t : string) : PyStr.replace "_l" "" (String "_" (String "l" t)) = PyStr.replace "_l" "" t.
Proof.
  rewrite !strip_eq, replace_from_cons, !prefix_cons_eq.
  destruct (ascii_dec "_" "_") as [_|N]; [|now elim N].
  destruct (ascii_dec "l" "l") as [_|N]; [|now elim N].
  rewrite prefix_empty.
  reflexivity.
Qed.

Lemma strip_underscore_other (t : string) :
  (forall t', t <> String "l" t') ->
  PyStr.replace "_l" "" (String "_" t) = String "_" (PyStr.replace "_l" "" t).
Proof.
  intros Ht. rewrite !strip_eq, replace_from_cons.
  destruct t as [|d t']; [reflexivity|].
  rewrite !prefix_cons_eq.
  destruct (ascii_dec "_" "_") as [_|N]; [|now elim N].
  destruct (ascii_dec "l" d) as [E|_]; [subst d; now elim (Ht t') | reflexivity].
Qed.


Lemma prefix_cons (a c : ascii) (n t : string) :
  String.prefix (String a n) (String c t) = true -> a = c /\ String.prefix n t = true.
Proof. rewrite prefix_cons_eq. destruct (ascii_dec a c); [auto | discriminate]. Qed.

Lemma prefix_cons_same (a : ascii) (n t : string) :
  String.prefix n t = true -> String.prefix (String a n) (String a t) = true.
Proof.
  intros H. rewrite prefix_cons_eq.
  destruct (ascii_dec a a) as [_|N]; [exact H | now elim N].
Qed.

Lemma prefix_strip (n s : string) :
  (forall c, In c (list_ascii_of_string n) -> c <> "_"%char /\ c <> "l"%char) -> String.prefix n s = true -> String.prefix n (PyStr.replace "_l" "" s) = true.
Proof.
  revert s; induction n as [|a n IH]; intros s Hp H; [apply prefix_empty|].
  destruct s as [|c t]; [discriminate|].
  apply prefix_cons in H. destruct H as [<- H].
  assert (Ha : a <> "_"%char) by (apply Hp; simpl; auto).
  rewrite strip_cons_other by exact Ha. apply prefix_cons_same.
  apply IH; [|exact H]. intros c Hc. apply Hp. simpl. auto.
Qed.

Lemma contains_cons (n : string) (c : ascii) (t : string) :
  PyStr.contains n t = true -> PyStr.contains n (String c t) = true.
Proof. intros H. simpl. rewrite H. apply orb_true_r. Qed.

Lemma contains_cases (n : string) (c : ascii) (t : string) :
  PyStr.contains n (String c t) = true ->
  String.prefix n (String c t) = true \/ PyStr.contains n t = true.
Proof. simpl. intros H. apply orb_true_iff in H. exact H. Qed.

Lemma contains_strip_bounded (a : ascii) (n : string) (k : nat) (s : string) :
  (forall c, In c (list_ascii_of_string (String a n)) -> c <> "_"%char /\ c <> "l"%char) -> (String.length s <= k)%nat ->
  PyStr.contains (String a n) s = true ->
  PyStr.contains (String a n) (PyStr.replace "_l" "" s) = true.
Proof.
  intros Hp. revert s; induction k as [|k IH]; intros s Hk H.
  - destruct s; [discriminate | simpl in Hk; lia].
  - destruct s as [|c t]; [discriminate|]. simpl in Hk.
    apply contains_cases in H. destruct H as [H|H].
    { apply contains_prefix, prefix_strip; assumption. }
    destruct (ascii_dec c "_") as [->|Hc].
    + destruct t as [|d t']; [discriminate|].
      destruct (ascii_dec d "l") as [->|Hd].
      * rewrite strip_underscore_l. apply IH; [simpl in Hk; lia|].
        apply contains_cases in H. destruct H as [H|H]; [|exact H].
        apply prefix_cons in H. destruct H as [E _].
        exfalso. assert (a <> "l"%char) by (apply Hp; simpl; auto). congruence.
      * rewrite strip_underscore_other by (intros t'' E; inversion E; congruence).
        apply contains_cons, IH; [lia | exact H].
    + rewrite strip_cons_other by exact Hc.
      apply contains_cons, IH; [lia | exact H].
Qed.

Lemma prefix_lower (n s : string) :
  String.prefix n s = true -> String.prefix (PyStr.lower n) (PyStr.lower s) = true.
Proof.
  revert s; induction n as [|a n IH]; intros s H; [apply prefix_empty|].
  destruct s as [|c t]; [discriminate|].
  apply prefix_cons in H. destruct H as [<- H].
  simpl PyStr.lower. apply prefix_cons_same, IH, H.
Qed.

Lemma contains_lower (n s : string) :
  PyStr.contains n s = true -> PyStr.contains (PyStr.lower n) (PyStr.lower s) = true.
Proof.
  induction s as [|c t IH]; intros H.
  - apply contains_prefix. change "" with (PyStr.lower ""). apply prefix_lower.
    simpl in H. now rewrite orb_false_r in H.
  - apply contains_cases in H. destruct H as [H|H].
    + apply contains_prefix. now apply prefix_lower in H.
    + simpl PyStr.lower. apply contains_cons, IH, H.
Qed.

Lemma prefix_first_piece (sep : ascii) (n s h : string) (rest : list string) :
  (forall c, In c (list_ascii_of_string n) -> c <> sep) ->
  String.prefix n s = true -> PyStr.split sep s = h :: rest ->
  String.prefix n h = true.
Proof.
  revert s h rest; induction n as [|a n IH]; intros s h rest Hn H Hs;
    [apply prefix_empty|].
  destruct s as [|c t]; [discriminate|].
  apply prefix_cons in H. destruct H as [<- H].
  assert (Ha : Ascii.eqb a sep = false)
    by (apply Ascii.eqb_neq, Hn; simpl; auto).
  simpl in Hs. rewrite Ha in Hs.
  destruct (PyStr.split sep t) as [|h' r'] eqn:Et; [now apply split_not_nil in Et|].
  inversion Hs; subst. apply prefix_cons_same.
  apply (IH t h' rest); [|exact H|exact Et]. intros c Hc. apply Hn. simpl. auto.
Qed.

Lemma contains_some_piece (sep a : ascii) (n s : string) :
  (forall c, In c (list_ascii_of_string (String a n)) -> c <> sep) ->
  PyStr.contains (String a n) s = true ->
  Exists (fun piece => PyStr.contains (String a n) piece = true) (PyStr.split sep s).
Proof.
  intros Hn. induction s as [|c t IH]; intros H; [discriminate|].
  apply contains_cases in H. simpl PyStr.split.
  destruct (Ascii.eqb c sep) eqn:Ec.
  - apply Ascii.eqb_eq in Ec. subst c. destruct H as [H|H].
    + apply prefix_cons in H. destruct H as [E _].
      exfalso. apply (Hn a); simpl; auto.
    + apply Exists_cons_tl, IH, H.
  - destruct (PyStr.split sep t) as [|h r] eqn:Et; [now apply split_not_nil in Et|].
    destruct H as [H|H].
    + apply Exists_cons_hd, contains_prefix.
      apply (prefix_first_piece sep (String a n) (String c t) (String c h) r);
        [exact Hn | exact H |].
      simpl. now rewrite Ec, Et.
    + specialize (IH H). inversion IH as [? ? Hh|? ? Hr]; subst.
      * apply Exists_cons_hd, contains_cons, Hh.
      * apply Exists_cons_tl, Hr.
Qed.

(** X11. The keys passed to the hotkey call are all in lower case, and one
    of them holds [command]: deleting [_l] and cutting at [+] never
    breaks the modifier's name. *)
Theorem hotkey_keys_are_lowercase (text : string)
    (Hcmd : PyStr.contains "Command" text || PyStr.contains "command" text = true) :
  exists keys : list string,
    Computer.key_event text = Computer.Hotkey keys /\
    Forall (fun key => PyStr.lower key = key) keys /\
    Exists (fun key => PyStr.contains "command" key = true) keys.
Proof.
  exists (PyStr.split "+" (PyStr.replace "_l" "" (PyStr.lower text))).
  split; [unfold Computer.key_event; now rewrite Hcmd|]. split.
  - apply split_keeps_lower. unfold PyStr.replace.
    apply replace_from_keeps_lower, lower_idempotent.
  - assert (Hlow : PyStr.contains "command" (PyStr.lower text) = true).
    { apply orb_true_iff in Hcmd. destruct Hcmd as [H|H];
        apply contains_lower in H; exact H. }
    apply contains_some_piece.
    + intros c Hc. simpl in Hc.
      repeat (destruct Hc as [<-|Hc]; [discriminate|]). contradiction.
    + apply (contains_strip_bounded _ _ (String.length (PyStr.lower text)));
        [|lia|exact Hlow].
      intros c Hc. simpl in Hc.
      repeat (destruct Hc as [<-|Hc]; [split; discriminate|]). contradiction.
Qed.

(** ** More on the computer tool *)

Ltac run_steps H :=
  unfold Computer.bind, Computer.lift, Computer.emit, Computer.ret,
    Computer.raise, Computer.get_position, Computer.screenshot in H;
  repeat (split_test; simpl in H; try discriminate H).

Section DispatchFacts.
Variable Image : Type.
Variable position : list Computer.event -> Z * Z.
Variable grab : list Computer.event -> Image.
Variable resize : Image -> Z -> Z -> Image.
Variable png_base64 : Image -> string.

Let call := Computer.call Image position grab resize png_base64.

(** X12. A dispatch that raises has injected nothing: every test, and the
    scaling, come before the first call to the input library. *)
Theorem raising_call_injects_nothing (self : Computer.ComputerTool) (action : string)
    (text coordinate : pyval) (tr tr' : list Computer.event) (e : exn)
    (Hraise : call self action text coordinate tr = (Raise e, tr')) :
  tr' = tr.
Proof.
  unfold call, Computer.call in Hraise.
  case_action Hraise; run_steps Hraise; inversion Hraise; reflexivity.
Qed.

(** X13. What a returning dispatch injects, by action: one [moveTo] for
    [mouse_move]; press, [moveTo], release, in this order, for
    [left_click_drag]; one hotkey or key press for [key]; one [write] of
    the text as given for [type]; the one click of its kind for each click
    action; nothing for [screenshot] and [cursor_position].  Earlier
    events are kept as they were. *)
Theorem injected_events_by_action (self : Computer.ComputerTool) (action : string)
    (text coordinate : pyval) (tr tr' : list Computer.event) (r : Computer.ToolResult)
    (Hret : call self action text coordinate tr = (Return r, tr')) :
  exists evs : list Computer.event,
    tr' = (tr ++ evs)%list /\
    (action = "mouse_move" -> exists x y, evs = [Computer.MoveTo x y]) /\
    (action = "left_click_drag" ->
       exists x y, evs = [Computer.MouseDown; Computer.MoveTo x y; Computer.MouseUp]) /\
    (action = "key" -> exists t, text = VStr t /\ evs = [Computer.key_event t]) /\
    (action = "type" ->
       exists t interval, text = VStr t /\ evs = [Computer.Typewrite t interval]) /\
    (action = "left_click" -> evs = [Computer.Click]) /\
    (action = "right_click" -> evs = [Computer.RightClick]) /\
    (action = "middle_click" -> evs = [Computer.MiddleClick]) /\
    (action = "double_click" -> evs = [Computer.DoubleClick]) /\
    (action = "screenshot" \/ action = "cursor_position" -> evs = []).
Proof.
  unfold call, Computer.call in Hret.
  case_action Hret; try discriminate Hret; run_steps Hret;
    inversion Hret; subst; clear Hret;
    rewrite <- ?app_assoc; simpl;
    (eexists; split; [try reflexivity; symmetry; apply app_nil_r|]);
    repeat split; intros Hact;
    repeat (destruct Hact as [Hact|Hact]); try discriminate Hact; eauto.
Qed.

(** X14. Only the ten names of [Action] are served: a dispatch that returns
    was given one of them, and any other name raises the invalid-action
    error whatever the text and the coordinate are. *)
Theorem only_actions_are_served (self : Computer.ComputerTool) (action : string)
    (text coordinate : pyval) (tr : list Computer.event) :
  (forall r tr', call self action text coordinate tr = (Return r, tr') ->
                 In action Computer.Action) /\
  (~ In action Computer.Action ->
   call self action text coordinate tr
   = (Raise (ToolError ("Invalid action: " ++ action)), tr)).
Proof.
  split.
  - intros r tr' Hret. unfold call, Computer.call in Hret.
    case_action Hret; try discriminate Hret; simpl; tauto.
  - intros Hout. unfold call, Computer.call.
    assert (Hne : forall a, In a Computer.Action -> (action =? a)%string = false).
    { intros a Ha. apply String.eqb_neq. intros ->. contradiction. }
    rewrite !Hne by (simpl; tauto). reflexivity.
Qed.

(** X15. The argument table of [__call__]: movement actions need a
    coordinate and take no text; [key] and [type] need a text and take no
    coordinate; the click actions, [screenshot] and [cursor_position]
    take neither.  Every breach raises a [ToolError] and injects nothing.
    A text for [key] or [type] that is not a [str] is refused too, before
    anything is injected, by the raise written [ToolError(output=...)]. *)
Theorem arguments_are_checked (self : Computer.ComputerTool) (action : string)
    (text coordinate : pyval) (tr : list Computer.event) :
  let refused :=
    exists msg, call self action text coordinate tr = (Raise (ToolError msg), tr) in
  (action = "mouse_move" \/ action = "left_click_drag" ->
   is_none coordinate = true \/ is_none text = false -> refused) /\
  (action = "key" \/ action = "type" ->
   is_none text = true \/ is_none coordinate = false -> refused) /\
  (action = "key" \/ action = "type" ->
   is_none text = false -> is_none coordinate = true -> is_str text = false ->
   call self action text coordinate tr
   = (Raise (ToolErrorOutput (str text ++ " must be a string")), tr)) /\
  (action = "left_click" \/ action = "right_click" \/ action = "middle_click" \/
   action = "double_click" \/ action = "screenshot" \/ action = "cursor_position" ->
   is_none text = false \/ is_none coordinate = false -> refused).
Proof.
  unfold call, Computer.call.
  split; [|split; [|split]].
  - intros Hact Hbad.
    repeat (destruct Hact as [Hact|Hact]); subst action; simpl;
      destruct text, coordinate; simpl in *;
      repeat (destruct Hbad as [Hbad|Hbad]); try discriminate Hbad;
      eexists; reflexivity.
  - intros Hact Hbad.
    repeat (destruct Hact as [Hact|Hact]); subst action; simpl;
      destruct text, coordinate; simpl in *;
      repeat (destruct Hbad as [Hbad|Hbad]); try discriminate Hbad;
      eexists; reflexivity.
  - intros Hact Htext Hcoord Hstr.
    repeat (destruct Hact as [Hact|Hact]); subst action; simpl;
      destruct text, coordinate; simpl in *;
      try discriminate Htext; try discriminate Hcoord; try discriminate Hstr;
      reflexivity.
  - intros Hact Hbad.
    repeat (destruct Hact as [Hact|Hact]); subst action; simpl;
      destruct text, coordinate; simpl in *;
      repeat (destruct Hbad as [Hbad|Hbad]); try discriminate Hbad;
      eexists; reflexivity.
Qed.

(** X16. An image in a returned result is the capture of the screen as it
    is after everything the dispatch injected, resized to 1280x800 when
    scaling is on. *)
Theorem returned_image_is_taken_last (self : Computer.ComputerTool) (action : string)
    (text coordinate : pyval) (tr tr' : list Computer.event) (r : Computer.ToolResult)
    (img : string)
    (Hret : call self action text coordinate tr = (Return r, tr'))
    (Himg : Computer.base64_image r = Some img) :
  img = png_base64
          (if Computer.scaling_enabled self
           then resize (grab tr') Computer.target_width Computer.target_height
           else grab tr').
Proof.
  unfold call, Computer.call in Hret.
  case_action Hret; try discriminate Hret; run_steps Hret;
    inversion Hret; subst; clear Hret; simpl in Himg;
    try discriminate Himg; inversion Himg; reflexivity.
Qed.
End DispatchFacts.

(** X17. A chunk size of zero raises [ValueError], and a negative one gives
    no chunk at all, whatever the string holds. *)
Theorem chunks_without_positive_size (s : string) (size : Z) (Hsize : size <= 0) :
  Computer.chunks s size = if size =? 0 then Raise ValueError else Return [].
Proof.
  unfold Computer.chunks, PyRange.range.
  destruct (size =? 0) eqn:E; [reflexivity|]. apply Z.eqb_neq in E.
  replace (0 <? size) with false by (symmetry; apply Z.ltb_ge; lia).
  assert (Hq : (0 - PyStr.len s - size - 1) / - size <= 0).
  { assert (0 <= PyStr.len s) by (unfold PyStr.len; lia).
    apply Z.lt_succ_r. apply Z.div_lt_upper_bound; lia. }
  destruct ((0 - PyStr.len s - size - 1) / - size) as [| p | p]; try lia; reflexivity.
Qed.

Lemma scale_coordinates_raises (self : Computer.ComputerTool) (x y : Z) (e : exn) :
  Computer.scale_coordinates self x y = Raise e ->
  e = OverflowError \/ e = ValueError.
Proof.
  assert (Hr : forall n f e', Float64.round_times n f = Raise e' ->
                              e' = OverflowError \/ e' = ValueError).
  { intros n f e'. unfold Float64.round_times, Float64.int_mul, Float64.of_int.
    destruct (binary_normalize Float64.prec Float64.emax n 0 false);
      try (intros H; inversion H; auto; fail);
      match goal with
      | |- context [Float64.round ?v] => destruct v
      end; simpl; intros H; inversion H; auto. }
  unfold Computer.scale_coordinates.
  destruct (negb (Computer.scaling_enabled self)); [discriminate|].
  destruct (Float64.round_times x _) eqn:Ex; [|intros H; inversion H; subst; eauto].
  destruct (Float64.round_times y _) eqn:Ey; [discriminate|].
  intros H; inversion H; subst; eauto.
Qed.

Section MovementFacts.
Variable Image : Type.
Variable position : list Computer.event -> Z * Z.
Variable grab : list Computer.event -> Image.
Variable resize : Image -> Z -> Z -> Image.
Variable png_base64 : Image -> string.

Let call := Computer.call Image position grab resize png_base64.

(** X18. On a display below 2^32 pixels a side, a movement to a list of two
    ints inside both the logical screen and the display returns the empty
    result and sends the pointer, once, to the scaled point: the integers
    nearest to [x * w / 1280] and [y * h / 800], on the display.
    [left_click_drag] wraps the same move in a press and a release. *)
Theorem movement_goes_to_the_scaled_point (w h x y : Z) (self : Computer.ComputerTool)
    (action : string) (tr : list Computer.event)
    (Hw : 0 < w < 2 ^ 32) (Hh : 0 < h < 2 ^ 32)
    (Hinit : Computer.init (w, h) = Return self)
    (Hact : action = "mouse_move" \/ action = "left_click_drag")
    (Hx : 0 <= x <= Z.min Computer.target_width w)
    (Hy : 0 <= y <= Z.min Computer.target_height h) :
  exists sx sy : Z,
    call self action VNone (VList [VInt x; VInt y]) tr
    = (Return Computer.empty_result,
       (tr ++ if (action =? "mouse_move")%string
              then [Computer.MoveTo sx sy]
              else [Computer.MouseDown; Computer.MoveTo sx sy; Computer.MouseUp])%list) /\
    Spec.nearest sx (x * w) Computer.target_width /\
    Spec.nearest sy (y * h) Computer.target_height /\
    0 <= sx <= w /\ 0 <= sy <= h.
Proof.
  unfold Computer.target_width, Computer.target_height in *.
  destruct (init_size w h self Hinit) as (Ewidth & Eheight & _).
  destruct (scale_coordinates_nearest w h x y self) as (sx & sy & E & Hsx & Hsy);
    try assumption; try lia.
  exists sx, sy.
  unfold call.
  rewrite bound_is_the_display_size by (try assumption; lia).
  rewrite Ewidth, Eheight, E.
  replace (w <? x) with false by (symmetry; apply Z.ltb_ge; lia).
  replace (h <? y) with false by (symmetry; apply Z.ltb_ge; lia).
  simpl orb. cbv iota.
  repeat split; try assumption;
    try (apply (nearest_within sx x w 1280); try assumption; lia);
    try (apply (nearest_within sy y h 800); try assumption; lia).
Qed.

(** X19. The size [to_params] publishes as [display_width_px] and
    [display_height_px] is the bound of the movement actions: a list of
    two non-negative ints beyond it is refused as out of bounds, and one
    within it never raises a [ToolError].  The entries [name] and [type]
    are not overwritten by the options. *)
Theorem published_size_is_the_bound (self : Computer.ComputerTool) (action : string)
    (x y pw ph : Z) (tr : list Computer.event)
    (Hact : action = "mouse_move" \/ action = "left_click_drag")
    (Hx : 0 <= x) (Hy : 0 <= y)
    (Hpw : Computer.dict_get (Computer.to_params self) "display_width_px" = Some (VInt pw))
    (Hph : Computer.dict_get (Computer.to_params self) "display_height_px" = Some (VInt ph)) :
  (pw < x \/ ph < y ->
   call self action VNone (VList [VInt x; VInt y]) tr
   = (Raise (ToolError ("Coordinates " ++ PyStr.of_int x ++ ", "
                        ++ PyStr.of_int y ++ " are out of bounds")), tr)) /\
  (x <= pw /\ y <= ph ->
   forall msg tr', call self action VNone (VList [VInt x; VInt y]) tr
                   <> (Raise (ToolError msg), tr')) /\
  Computer.dict_get (Computer.to_params self) "name" = Some (VStr "computer") /\
  Computer.dict_get (Computer.to_params self) "type" = Some (VStr "computer_20241022") /\
  map fst (Computer.to_params self)
  = ["name"; "type"; "display_width_px"; "display_height_px"; "display_number"].
Proof.
  simpl in Hpw, Hph. inversion Hpw; inversion Hph; subst pw ph.
  unfold call. rewrite bound_is_the_display_size by assumption.
  repeat split.
  - intros Hout.
    replace ((Computer.width self <? x) || (Computer.height self <? y)) with true;
      [reflexivity|].
    symmetry. apply orb_true_iff.
    destruct Hout; [left | right]; apply Z.ltb_lt; assumption.
  - intros [Hin1 Hin2] msg tr'.
    replace (Computer.width self <? x) with false by (symmetry; apply Z.ltb_ge; lia).
    replace (Computer.height self <? y) with false by (symmetry; apply Z.ltb_ge; lia).
    simpl orb. cbv iota.
    destruct (Computer.scale_coordinates self x y) as [[sx sy]|e] eqn:E;
      [discriminate|].
    apply scale_coordinates_raises in E. intros H. inversion H; subst.
    destruct E; discriminate.
Qed.
End MovementFacts.

(** ** The theorems above at concrete inputs *)

Lemma chunks_partition_witness :
  0 < 3 /\
  exists cs : list string,
    Computer.chunks "abcdefgh" 3 = Return cs /\ PyStr.concat cs = "abcdefgh".
Proof.
  split; [lia|].
  destruct (chunks_partition "abcdefgh" 3 ltac:(lia)) as (cs & E & Hc & _).
  exists cs. split; assumption.
Defined.

Lemma chunks_without_positive_size_witness :
  -2 <= 0 /\ Computer.chunks "abc" (-2) = Return [].
Proof.
  split; [lia|]. exact (chunks_without_positive_size "abc" (-2) ltac:(lia)).
Defined.

Lemma maybe_truncate_idempotent_witness :
  (forall n, Some 3 = Some n -> 0 <= n) /\
  Run.maybe_truncate (Run.maybe_truncate "abcdef" (Some 3)) (Some 3)
  = Run.maybe_truncate "abcdef" (Some 3).
Proof.
  assert (H : forall n, Some 3 = Some n -> 0 <= n)
    by (intros n E; inversion E; lia).
  split; [exact H|]. exact (maybe_truncate_idempotent "abcdef" (Some 3) H).
Defined.

Lemma maybe_truncate_negative_limit_witness :
  -2 < 0 /\
  Run.maybe_truncate "hello" (Some (-2)) = "hel" ++ Run.TRUNCATED_MESSAGE.
Proof.
  split; [lia|].
  exact (proj1 (maybe_truncate_negative_limit "hello" (-2) ltac:(lia))).
Defined.

Lemma run_shell_output_is_bounded_witness :
  0 < 16000 /\
  Run.run_shell Example.float_repr Example.spawn "true" None (Some 16000)
  = (Return (0, "", ""), [Run.Spawn "true"]) /\
  PyStr.len "" <= 16000 + PyStr.len Run.TRUNCATED_MESSAGE.
Proof.
  split; [lia|]. split; [reflexivity|].
  exact (proj1 (proj2 (proj2 (proj2
           (run_shell_output_is_bounded Example.float_repr Example.spawn "true" None
              16000 0 "" "" [Run.Spawn "true"] ltac:(lia) eq_refl))))).
Defined.

Lemma raising_call_injects_nothing_witness :
  Example.call Example.wuxga "key" VNone VNone [Computer.Click]
  = (Raise (ToolError "text is required for key"), [Computer.Click]) /\
  [Computer.Click] = [Computer.Click].
Proof.
  split; [reflexivity|].
  exact (raising_call_injects_nothing Example.Image Example.position Example.grab
           Example.resize Example.png_base64 Example.wuxga "key" VNone VNone
           [Computer.Click] [Computer.Click] _ eq_refl).
Defined.

Lemma injected_events_by_action_witness :
  Example.call Example.wuxga "double_click" VNone VNone [Computer.MouseUp]
  = (Return {| Computer.output := None; Computer.error := None;
               Computer.base64_image := Some "iVBORw0KGgo=" |},
     [Computer.MouseUp; Computer.DoubleClick]) /\
  exists evs : list Computer.event,
    [Computer.MouseUp; Computer.DoubleClick] = ([Computer.MouseUp] ++ evs)%list /\
    evs = [Computer.DoubleClick].
Proof.
  split; [reflexivity|].
  destruct (injected_events_by_action Example.Image Example.position Example.grab
              Example.resize Example.png_base64 Example.wuxga "double_click"
              VNone VNone [Computer.MouseUp] [Computer.MouseUp; Computer.DoubleClick]
              _ eq_refl)
    as (evs & Etr & _ & _ & _ & _ & _ & _ & _ & Hdc & _).
  exists evs. split; [exact Etr | exact (Hdc eq_refl)].
Defined.

Lemma returned_image_is_taken_last_witness :
  Example.call Example.wuxga "left_click" VNone VNone []
  = (Return {| Computer.output := None; Computer.error := None;
               Computer.base64_image := Some "iVBORw0KGgo=" |}, [Computer.Click]) /\
  "iVBORw0KGgo="
  = Example.png_base64 (Example.resize (Example.grab [Computer.Click]) 1280 800).
Proof.
  split; [reflexivity|].
  exact (returned_image_is_taken_last Example.Image Example.position Example.grab
           Example.resize Example.png_base64 Example.wuxga "left_click"
           VNone VNone [] [Computer.Click] _ "iVBORw0KGgo=" eq_refl eq_refl).
Defined.

Lemma wuxga_is_built : Computer.init (1920, 1200) = Return Example.wuxga.
Proof. vm_compute. reflexivity. Defined.

Lemma xga_is_built : Computer.init (1024, 768) = Return Example.xga.
Proof. vm_compute. reflexivity. Defined.

Lemma scale_coordinates_stays_on_display_witness :
  Computer.init (1024, 768) = Return Example.xga /\
  (exists sx sy : Z,
     Computer.scale_coordinates Example.xga 1000 700 = Return (sx, sy) /\
     0 <= sx <= 1024 /\ 0 <= sy <= 768) /\
  Computer.scale_coordinates Example.xga 1280 800 = Return (1024, 768).
Proof.
  split; [exact xga_is_built|].
  destruct (scale_coordinates_stays_on_display 1024 768 1000 700 Example.xga)
    as (Hin & _ & Hcorner);
    try (unfold Computer.target_width, Computer.target_height; lia);
    try exact xga_is_built.
  split; [exact Hin | exact Hcorner].
Defined.

Lemma scale_coordinates_monotone_witness :
  Computer.scale_coordinates Example.wuxga 100 200 = Return (150, 300) /\
  Computer.scale_coordinates Example.wuxga 101 200 = Return (152, 300) /\
  150 < 152.
Proof.
  split; [vm_compute; reflexivity|]. split; [vm_compute; reflexivity|].
  assert (E1 : Computer.scale_coordinates Example.wuxga 100 200 = Return (150, 300))
    by (vm_compute; reflexivity).
  assert (E2 : Computer.scale_coordinates Example.wuxga 101 200 = Return (152, 300))
    by (vm_compute; reflexivity).
  refine (proj1 (proj2 (proj2
            (scale_coordinates_monotone 1920 1200 100 200 101 200 150 300 152 300
               Example.wuxga _ _ wuxga_is_built _ _ E1 E2))) _ _);
    unfold Computer.target_width, Computer.target_height; lia.
Defined.

Lemma scale_coordinates_whole_factor_witness :
  Computer.init (1280 * 2, 800 * 2) = Return (Example.tool_of (2560, 1600)) /\
  Computer.scale_coordinates (Example.tool_of (2560, 1600)) 333 777
  = Return (2 * 333, 2 * 777).
Proof.
  assert (E : Computer.init (Computer.target_width * 2, Computer.target_height * 2)
              = Return (Example.tool_of (2560, 1600)))
    by (vm_compute; reflexivity).
  split; [exact E|].
  apply (scale_coordinates_whole_factor 2 2 333 777 _); try exact E;
    unfold Computer.target_width, Computer.target_height; lia.
Defined.

Lemma movement_goes_to_the_scaled_point_witness :
  exists sx sy : Z,
    Example.call Example.xga "left_click_drag" VNone (VList [VInt 1000; VInt 700]) []
    = (Return Computer.empty_result,
       [Computer.MouseDown; Computer.MoveTo sx sy; Computer.MouseUp]) /\
    0 <= sx <= 1024 /\ 0 <= sy <= 768.
Proof.
  destruct (movement_goes_to_the_scaled_point Example.Image Example.position
              Example.grab Example.resize Example.png_base64
              1024 768 1000 700 Example.xga "left_click_drag" [])
    as (sx & sy & E & _ & _ & Hsx & Hsy);
    try (unfold Computer.target_width, Computer.target_height; lia);
    try exact xga_is_built; try (right; reflexivity).
  exists sx, sy. split; [exact E | split; assumption].
Defined.

Lemma hotkey_keys_are_lowercase_witness :
  exists keys : list string,
    Computer.key_event "Command_L+Shift_L+Q" = Computer.Hotkey keys /\
    Forall (fun key => PyStr.lower key = key) keys /\
    Exists (fun key => PyStr.contains "command" key = true) keys.
Proof. exact (hotkey_keys_are_lowercase "Command_L+Shift_L+Q" eq_refl). Defined.

Lemma published_size_is_the_bound_witness :
  Computer.dict_get (Computer.to_params Example.wuxga) "display_width_px"
  = Some (VInt 1920) /\
  Example.call Example.wuxga "mouse_move" VNone (VList [VInt 1921; VInt 0]) []
  = (Raise (ToolError ("Coordinates " ++ PyStr.of_int 1921 ++ ", "
                       ++ PyStr.of_int 0 ++ " are out of bounds")), []).
Proof.
  split; [reflexivity|].
  refine (proj1 (published_size_is_the_bound Example.Image Example.position
                   Example.grab Example.resize Example.png_base64
                   Example.wuxga "mouse_move" 1921 0 1920 1200 []
                   (or_introl eq_refl) _ _ eq_refl eq_refl) _); lia.
Defined.
